(** * Regenbox firmware: serial command dispatcher and voltage averager

    A shallow embedding of [firmware/firmware.ino].  The sketch runs on
    an 8-bit Arduino board: [byte] and [uint8_t] are 8 bits wide,
    [unsigned long] and [uint32_t] are 32 bits wide and wrap around.

    The board's peripherals are outside the sketch.  They appear here as
    - the output latches of the three digital pins the sketch drives,
    - the serial receive buffer [rx],
    - an analog source [adc] giving the result of every conversion,
    - a chronological log of the events the sketch causes (pin writes,
      conversions, delays, bytes written to the serial port). *)

From Stdlib Require Import ZArith Lia Bool.
From stdpp Require Import base list.

Local Open Scope Z_scope.

(** ** Constants of the sketch *)

Definition READ_A0 : Z := 0x00.
Definition READ_V : Z := 0x01.
Definition LED_TOGGLE : Z := 0x12.
Definition LED_0 : Z := 0x10.
Definition LED_1 : Z := 0x11.
Definition PIN_DISCHARGE_0 : Z := 0x30.
Definition PIN_DISCHARGE_1 : Z := 0x31.
Definition PIN_CHARGE_0 : Z := 0x40.
Definition PIN_CHARGE_1 : Z := 0x41.
Definition MODE_IDLE : Z := 0x50.
Definition MODE_CHARGE : Z := 0x51.
Definition MODE_DISCHARGE : Z := 0x52.
Definition READ_A1 : Z := 0x62.
Definition READ_V1 : Z := 0x63.
Definition READ_A2 : Z := 0x64.
Definition READ_V2 : Z := 0x65.
Definition READ_A3 : Z := 0x66.
Definition READ_V3 : Z := 0x67.
Definition PING : Z := 0xA0.
Definition STOP_BYTE : Z := 0xff.

Definition PIN_CHARGE : Z := 4.
Definition PIN_DISCHARGE : Z := 3.
Definition PIN_LED : Z := 13.

Definition CAN_REF : Z := 2410.
Definition CAN_BITSIZE : Z := 1023.
Definition NB_ANALOG_RD : Z := 204.

Definition VOLTAGE_HISTORY_NUM : Z := 10.
Definition CHARGE_THRESHOLD : Z := 1500.

(** Analog input numbers [A0] .. [A3] as [analogRead] receives them; the
    model names the inputs by their channel number. *)
Definition A0 : Z := 0.
Definition A1 : Z := 1.
Definition A2 : Z := 2.
Definition A3 : Z := 3.

(** ** Machine integers *)

Definition UL_MOD : Z := 2 ^ 32.

(** Value of an [unsigned long] / [uint32_t] expression. *)
Definition wrap32 (x : Z) : Z := x mod UL_MOD.

(** Value of a [byte] / [uint8_t] expression. *)
Definition wrap8 (x : Z) : Z := x mod 256.

(** ** Events and state *)

Inductive event : Type :=
| EvDigitalWrite (pin : Z) (level : bool)
| EvAnalogRead (pin : Z) (sample : Z)
| EvDelay (ms : Z)
| EvSerialWrite (b : Z).

Record state : Type := mkState {
  pinCharge : bool;               (* output latch of pin PIN_CHARGE *)
  pinDischarge : bool;            (* output latch of pin PIN_DISCHARGE *)
  pinLed : bool;                  (* output latch of pin PIN_LED *)
  gVoltageHist : list (list Z);   (* unsigned long [4][VOLTAGE_HISTORY_NUM] *)
  gHistCounter : Z;               (* unsigned long *)
  rx : list Z;                    (* bytes waiting in the serial receive buffer *)
  adcReads : nat                  (* conversions made so far *)
}.

(** What the sketch cannot control: the sample every conversion returns
    (per input, per conversion number) and the content an uninitialised
    local variable happens to have (per conversion number at the time the
    variable comes to life). *)
Record world : Type := mkWorld {
  adc : Z -> nat -> Z;
  uninit : nat -> Z
}.

Definition set_pinCharge (b : bool) (s : state) : state :=
  mkState b (pinDischarge s) (pinLed s) (gVoltageHist s) (gHistCounter s)
          (rx s) (adcReads s).
Definition set_pinDischarge (b : bool) (s : state) : state :=
  mkState (pinCharge s) b (pinLed s) (gVoltageHist s) (gHistCounter s)
          (rx s) (adcReads s).
Definition set_pinLed (b : bool) (s : state) : state :=
  mkState (pinCharge s) (pinDischarge s) b (gVoltageHist s) (gHistCounter s)
          (rx s) (adcReads s).
Definition set_gVoltageHist (h : list (list Z)) (s : state) : state :=
  mkState (pinCharge s) (pinDischarge s) (pinLed s) h (gHistCounter s)
          (rx s) (adcReads s).
Definition set_gHistCounter (c : Z) (s : state) : state :=
  mkState (pinCharge s) (pinDischarge s) (pinLed s) (gVoltageHist s) c
          (rx s) (adcReads s).
Definition set_rx (q : list Z) (s : state) : state :=
  mkState (pinCharge s) (pinDischarge s) (pinLed s) (gVoltageHist s)
          (gHistCounter s) q (adcReads s).
Definition set_adcReads (n : nat) (s : state) : state :=
  mkState (pinCharge s) (pinDischarge s) (pinLed s) (gVoltageHist s)
          (gHistCounter s) (rx s) n.

(** ** The monad of sketch code

    A computation takes the state and either has undefined behaviour
    ([None]) or gives a result, the next state and the events it caused,
    oldest first. *)

Definition M (A : Type) : Type := state -> option (A * state * list event).

Definition ret {A} (a : A) : M A := fun s => Some (a, s, []).

Definition bind {A B} (c : M A) (k : A -> M B) : M B :=
  fun s =>
    match c s with
    | None => None
    | Some (a, s1, e1) =>
        match k a s1 with
        | None => None
        | Some (b, s2, e2) => Some (b, s2, e1 ++ e2)
        end
    end.

Definition undefined {A} : M A := fun _ => None.
Definition gets {A} (f : state -> A) : M A := fun s => Some (f s, s, []).
Definition modify (f : state -> state) : M unit := fun s => Some (tt, f s, []).
Definition emit (e : event) : M unit := fun s => Some (tt, s, [e]).

Notation "'let*' x ':=' c 'in' k" := (bind c (fun x => k))
  (at level 10, x name, c at level 100, k at level 200).
Notation "c ';;' k" := (bind c (fun _ => k))
  (at level 100, k at level 200, right associativity).

(** ** Board primitives (Arduino core, outside the repository) *)

(** [digitalWrite(pin, v)]: sets the output latch of the pin.  Only the
    three pins of the sketch are tracked. *)
Definition digitalWrite (pin : Z) (v : bool) : M unit :=
  emit (EvDigitalWrite pin v);;
  if pin =? PIN_CHARGE then modify (set_pinCharge v)
  else if pin =? PIN_DISCHARGE then modify (set_pinDischarge v)
  else if pin =? PIN_LED then modify (set_pinLed v)
  else ret tt.

(** [digitalRead(pin)] of an output pin gives the level last written. *)
Definition digitalRead (pin : Z) : M bool :=
  if pin =? PIN_CHARGE then gets pinCharge
  else if pin =? PIN_DISCHARGE then gets pinDischarge
  else if pin =? PIN_LED then gets pinLed
  else ret false.

(** [delay(ms)]. *)
Definition delay (ms : Z) : M unit := emit (EvDelay ms).

(** [Serial.available()] and [Serial.read()]. *)
Definition Serial_available : M bool :=
  gets (fun s => match rx s with [] => false | _ :: _ => true end).

Definition Serial_read : M Z :=
  let* q := gets rx in
  match q with
  | [] => ret (-1)
  | b :: q' => modify (set_rx q');; ret b
  end.

(** [Serial.write(b)]: one byte goes out; the call reports one byte
    written. *)
Definition Serial_write (b : Z) : M Z :=
  emit (EvSerialWrite (wrap8 b));; ret 1.

(** Decimal digits of [n], most significant first, as the core's
    [Print::printNumber] produces them for base 10: a do-while loop that
    peels the last digit until the quotient is zero.  An [unsigned long]
    has at most ten digits. *)
Fixpoint printNumber (fuel : nat) (n : Z) (acc : list Z) : list Z :=
  let acc' := (48 + n mod 10) :: acc in
  match fuel with
  | O => acc'
  | S fuel' => if n / 10 =? 0 then acc' else printNumber fuel' (n / 10) acc'
  end.

Definition decimal (n : Z) : list Z := printNumber 9 n [].

Fixpoint Serial_write_all (bs : list Z) : M unit :=
  match bs with
  | [] => ret tt
  | b :: bs' => Serial_write b;; Serial_write_all bs'
  end.

(** [Serial.print(unsigned long)]: returns the number of bytes written. *)
Definition Serial_print (v : Z) : M Z :=
  let ds := decimal v in
  Serial_write_all ds;; ret (Z.of_nat (length ds)).

(** ** The sketch *)

Section Sketch.

Variable w : world.

(** [analogRead(pin)]: the next conversion on that input. *)
Definition analogRead (pin : Z) : M Z :=
  let* n := gets adcReads in
  let v := adc w pin n in
  modify (set_adcReads (S n));;
  emit (EvAnalogRead pin v);;
  ret v.

(** The content of a local [unsigned long] declared without initialiser. *)
Definition uninitialised : M Z :=
  let* n := gets adcReads in ret (wrap32 (uninit w n)).

(** [gVoltageHist[j][i]] as an rvalue; an index outside the array has
    undefined behaviour. *)
Definition readHist (j i : Z) : M Z :=
  let* h := gets gVoltageHist in
  match h !! Z.to_nat j with
  | Some row =>
      match row !! Z.to_nat i with
      | Some v => ret v
      | None => undefined
      end
  | None => undefined
  end.

(** [gVoltageHist[j][i] = v]. *)
Definition writeHist (j i v : Z) : M unit :=
  let* h := gets gVoltageHist in
  match h !! Z.to_nat j with
  | Some row =>
      if (Z.to_nat i <? length row)%nat
      then modify (set_gVoltageHist (<[Z.to_nat j := <[Z.to_nat i := v]> row]> h))
      else undefined
  | None => undefined
  end.

Fixpoint fill_row (j : Z) (n : nat) (i : Z) : M unit :=
  match n with
  | O => ret tt
  | S n' => writeHist j i CHARGE_THRESHOLD;; fill_row j n' (i + 1)
  end.

Fixpoint fill_rows (n : nat) (j : Z) : M unit :=
  match n with
  | O => ret tt
  | S n' => fill_row j (Z.to_nat VOLTAGE_HISTORY_NUM) 0;; fill_rows n' (j + 1)
  end.

Definition initVoltageHist : M unit :=
  fill_rows 4 0;;
  modify (set_gHistCounter 0).

(** [for (byte i = start; ...; i++) avgVoltage += gVoltageHist[j][i];]
    for [n] iterations. *)
Fixpoint sumHist (j : Z) (n : nat) (i : Z) (avgVoltage : Z) : M Z :=
  match n with
  | O => ret avgVoltage
  | S n' =>
      let* v := readHist j i in
      sumHist j n' (i + 1) (wrap32 (avgVoltage + v))
  end.

(** [floor] of an [unsigned long] quotient: the quotient converts to
    [double], [floor] leaves an integral value as it is, and the
    assignment converts back.  Integers below [2^24] are exact in both the
    32-bit and the 64-bit [double] of the boards; every value the sketch
    stores in the history is at most [(2^32 - 1) / 1023 < 2^24]
    (see [hist_bounded]). *)
Definition floor_ul (q : Z) : Z := q.

Definition computeAvgVoltage (j : Z) : M Z :=
  let avgVoltage := 0 in
  let* c := gets gHistCounter in
  if c <? VOLTAGE_HISTORY_NUM then
    (* i = 0 .. gHistCounter: gHistCounter + 1 iterations *)
    let* avgVoltage := sumHist j (Z.to_nat (c + 1)) 0 avgVoltage in
    ret (floor_ul (avgVoltage / wrap32 (c + 1)))
  else
    let* avgVoltage := sumHist j (Z.to_nat VOLTAGE_HISTORY_NUM) 0 avgVoltage in
    ret (floor_ul (avgVoltage / VOLTAGE_HISTORY_NUM)).

Definition setCharge (b : bool) : M unit := digitalWrite PIN_CHARGE (negb b).
Definition setDischarge (b : bool) : M unit := digitalWrite PIN_DISCHARGE b.
Definition setLed (b : bool) : M unit := digitalWrite PIN_LED b.

Definition toggleLed : M bool :=
  let* l := digitalRead PIN_LED in
  let b := negb l in
  setLed b;;
  ret b.

(** Control that leaves the [switch] without a [return] flows off the end
    of a value-returning function: undefined behaviour. *)
Definition getAnalog (pin : Z) : M Z :=
  if pin =? 0 then let* v := analogRead A0 in ret (wrap32 v)
  else if pin =? 1 then let* v := analogRead A1 in ret (wrap32 v)
  else if pin =? 2 then let* v := analogRead A2 in ret (wrap32 v)
  else if pin =? 3 then let* v := analogRead A3 in ret (wrap32 v)
  else undefined.

(** The sampling loop of [getVoltage]: [n] iterations; [byte i] counts to
    [NB_ANALOG_RD = 204] without wrapping. *)
Fixpoint sampleLoop (j : Z) (n : nat) (sum : Z) : M Z :=
  match n with
  | O => ret sum
  | S n' =>
      let* tmp := getAnalog j in
      let sum := wrap32 (sum + tmp) in
      delay 1;;
      sampleLoop j n' sum
  end.

Definition getVoltage (j : Z) : M Z :=
  let* sum := uninitialised in
  let* sum := sampleLoop j (Z.to_nat NB_ANALOG_RD) sum in
  let sum := sum / NB_ANALOG_RD in
  let sum := wrap32 (sum * CAN_REF) / CAN_BITSIZE in
  let* c := gets gHistCounter in
  writeHist j (c mod VOLTAGE_HISTORY_NUM) sum;;
  modify (set_gHistCounter (wrap32 (c + 1)));;
  computeAvgVoltage j.

Definition sendUint (v : Z) : M bool :=
  let* n := Serial_print v in
  if n <=? 0 then ret false else ret true.

Definition sendBool (v : bool) : M bool :=
  let* n := Serial_write (if v then 1 else 0) in
  if n <=? 0 then ret false else ret true.

(** [Serial.begin], [analogReference] and [pinMode] configure the
    peripherals and leave the modelled state as it is. *)
Definition setup : M unit :=
  setCharge false;;
  setDischarge false;;
  setLed true;;
  initVoltageHist.

(** The [switch] of [loop]: [true] when the case leaves by [break],
    [false] when it leaves by [return]. *)
Definition loop_switch (in_ : Z) : M bool :=
  if in_ =? READ_A0 then let* v := getAnalog 0 in sendUint v;; ret true
  else if in_ =? READ_V then let* v := getVoltage 0 in sendUint v;; ret true
  else if in_ =? READ_A1 then let* v := getAnalog 1 in sendUint v;; ret true
  else if in_ =? READ_V1 then let* v := getVoltage 1 in sendUint v;; ret true
  else if in_ =? READ_A2 then let* v := getAnalog 2 in sendUint v;; ret true
  else if in_ =? READ_V2 then let* v := getVoltage 2 in sendUint v;; ret true
  else if in_ =? READ_A3 then let* v := getAnalog 3 in sendUint v;; ret true
  else if in_ =? READ_V3 then let* v := getVoltage 3 in sendUint v;; ret true
  else if in_ =? LED_0 then setLed false;; ret true
  else if in_ =? LED_1 then setLed true;; ret true
  else if in_ =? LED_TOGGLE then let* b := toggleLed in sendBool b;; ret true
  else if in_ =? PIN_DISCHARGE_0 then setDischarge false;; ret true
  else if in_ =? PIN_DISCHARGE_1 then setDischarge true;; ret true
  else if in_ =? PIN_CHARGE_0 then setCharge false;; ret true
  else if in_ =? PIN_CHARGE_1 then setCharge true;; ret true
  else if in_ =? MODE_IDLE then setDischarge false;; setCharge false;; ret true
  else if in_ =? MODE_CHARGE then setDischarge false;; setCharge true;; ret true
  else if in_ =? MODE_DISCHARGE then setCharge false;; setDischarge true;; ret true
  else if in_ =? PING then ret true
  else (* do not talk to strangers *) ret false.

Definition loop : M unit :=
  let* avail := Serial_available in
  if negb avail then ret tt
  else
    let* r := Serial_read in
    let in_ := wrap8 r in
    let* brk := loop_switch in_ in
    if brk then Serial_write STOP_BYTE;; ret tt else ret tt.

End Sketch.

(** The memory before [setup]: globals zero-initialised, latches low,
    nothing received. *)
Definition power_on : state :=
  mkState false false false (replicate 4 (replicate 10 0)) 0 [] 0.

(** The state in which [loop] first runs. *)
Definition startup : state :=
  mkState true false true (replicate 4 (replicate 10 CHARGE_THRESHOLD)) 0 [] 0.

(** ** Vocabulary of the properties *)

(** Logical state of the two power lines: [setCharge] drives its pin
    with the opposite level, [setDischarge] with the same level. *)
Definition charge_on (s : state) : bool := negb (pinCharge s).
Definition discharge_on (s : state) : bool := pinDischarge s.

(** Bytes written to the serial port, oldest first. *)
Fixpoint serial_out (ev : list event) : list Z :=
  match ev with
  | [] => []
  | EvSerialWrite b :: ev' => b :: serial_out ev'
  | _ :: ev' => serial_out ev'
  end.

(** The effect of one logged event on the latches, and the states the
    board goes through while a list of events happens. *)
Definition apply_event (e : event) (s : state) : state :=
  match e with
  | EvDigitalWrite pin v =>
      if pin =? PIN_CHARGE then set_pinCharge v s
      else if pin =? PIN_DISCHARGE then set_pinDischarge v s
      else if pin =? PIN_LED then set_pinLed v s
      else s
  | _ => s
  end.

Fixpoint states_through (s : state) (ev : list event) : list state :=
  match ev with
  | [] => []
  | e :: ev' => apply_event e s :: states_through (apply_event e s) ev'
  end.

Definition channels : list Z := [0; 1; 2; 3].

Definition averaged_opcodes : list Z := [READ_V; READ_V1; READ_V2; READ_V3].
Definition raw_opcodes : list Z := [READ_A0; READ_A1; READ_A2; READ_A3].
Definition plain_opcodes : list Z :=
  [LED_0; LED_1; PIN_DISCHARGE_0; PIN_DISCHARGE_1; PIN_CHARGE_0; PIN_CHARGE_1;
   MODE_IDLE; MODE_CHARGE; MODE_DISCHARGE; PING].
Definition opcode_table : list Z :=
  raw_opcodes ++ averaged_opcodes ++ [LED_TOGGLE] ++ plain_opcodes.

(** The averaged-read opcode of a channel. *)
Definition averaged_opcode (j : Z) : Z :=
  if j =? 0 then READ_V else if j =? 1 then READ_V1
  else if j =? 2 then READ_V2 else READ_V3.

(** The raw-read opcode of a channel. *)
Definition raw_opcode (j : Z) : Z :=
  if j =? 0 then READ_A0 else if j =? 1 then READ_A1
  else if j =? 2 then READ_A2 else READ_A3.

(** A world whose inputs all read [R] at every conversion and whose
    uninitialised locals all hold [junk]. *)
Definition const_world (R junk : Z) : world :=
  mkWorld (fun _ _ => R) (fun _ => junk).

(** An event that is not a conversion, or a conversion of one of the
    four inputs. *)
Definition analog_ok (e : event) : Prop :=
  match e with
  | EvAnalogRead pin _ => In pin channels
  | _ => True
  end.

(** The host sends one byte and the board runs [loop] once. *)
Definition serve (w : world) (b : Z) : M unit :=
  modify (fun s => set_rx (rx s ++ [b]) s);; loop w.

Fixpoint session (w : world) (cmds : list Z) : M unit :=
  match cmds with
  | [] => ret tt
  | b :: cmds' => serve w b;; session w cmds'
  end.

Definition state_after (w : world) (cmds : list Z) (s : state) : option state :=
  match session w cmds s with
  | Some (_, s', _) => Some s'
  | None => None
  end.

Definition reply (w : world) (b : Z) (s : state) : option (list Z) :=
  match serve w b s with
  | Some (_, _, ev) => Some (serial_out ev)
  | None => None
  end.

(** What the sampling loop of [getVoltage] leaves in [sum]: [n]
    conversions of input [j], the first being conversion number [k]. *)
Fixpoint sum_samples (w : world) (j : Z) (n k : nat) (sum : Z) : Z :=
  match n with
  | O => sum
  | S n' => sum_samples w j n' (S k) (wrap32 (sum + wrap32 (adc w j k)))
  end.

Fixpoint sample_events (w : world) (j : Z) (n k : nat) : list event :=
  match n with
  | O => []
  | S n' => EvAnalogRead j (adc w j k) :: EvDelay 1 :: sample_events w j n' (S k)
  end.

(** The value [getVoltage] stores when the accumulator starts at [sum0]
    and the first conversion has number [k]. *)
Definition scaled_from (w : world) (j : Z) (k : nat) (sum0 : Z) : Z :=
  wrap32 (sum_samples w j (Z.to_nat NB_ANALOG_RD) k sum0 / NB_ANALOG_RD * CAN_REF)
  / CAN_BITSIZE.

(** Wrap-around sum of a list of [unsigned long]. *)
Definition sum_ul (l : list Z) (acc : Z) : Z :=
  fold_left (fun a v => wrap32 (a + v)) l acc.

(** What [computeAvgVoltage] returns for a row when the counter is [c]. *)
Definition rolling_avg (c : Z) (row : list Z) : Z :=
  if c <? VOLTAGE_HISTORY_NUM
  then sum_ul (take (Z.to_nat (c + 1)) row) 0 / wrap32 (c + 1)
  else sum_ul (take (Z.to_nat VOLTAGE_HISTORY_NUM) row) 0 / VOLTAGE_HISTORY_NUM.

(** Largest value a history slot can hold: the seed, or a 32-bit product
    divided by [CAN_BITSIZE]. *)
Definition HIST_MAX : Z := (UL_MOD - 1) / CAN_BITSIZE.

(** The shape the C types give the globals. *)
Definition wf (s : state) : Prop :=
  length (gVoltageHist s) = 4%nat /\
  Forall (fun row => length row = 10%nat /\ Forall (fun v => 0 <= v <= HIST_MAX) row)
         (gVoltageHist s) /\
  0 <= gHistCounter s < UL_MOD.

(** *** The averaged read as the specification words it

    204 raw samples, summed into an accumulator that starts at zero,
    truncating mean, scaled by [mean * 2410 / 1023]. *)
Definition spec_scaled (samples : list Z) : Z :=
  let sum := fold_left Z.add samples 0 in
  let mean := sum / 204 in
  mean * 2410 / 1023.

(** The samples of one averaged read of channel [j] that starts at
    conversion number [k]. *)
Definition samples_of (w : world) (j : Z) (k : nat) : list Z :=
  map (fun i => adc w j (k + i)%nat) (seq 0 204).

(** The truncating mean of the entries inserted so far. *)
Definition spec_mean (inserted : list Z) : Z :=
  fold_left Z.add inserted 0 / Z.of_nat (length inserted).

(** The value an averaged read of channel [j] stores when it starts in
    state [s]: the accumulator starts with whatever the local holds. *)
Definition stored_value (w : world) (j : Z) (s : state) : Z :=
  scaled_from w j (adcReads s) (wrap32 (uninit w (adcReads s))).

(** What [loop] does with the outcome of its [switch]. *)
Definition finish (r : option (bool * state * list event))
  : option (unit * state * list event) :=
  match r with
  | None => None
  | Some (brk, s', ev) =>
      Some (tt, s', if brk then ev ++ [EvSerialWrite STOP_BYTE] else ev)
  end.

(** The byte is one of the four averaged-read opcodes. *)
Definition is_averaged (x : Z) : bool := existsb (Z.eqb x) averaged_opcodes.

(** The ring slots that the averaged reads of channel [j] write while
    the command bytes [cmds] are served one after the other, the counter
    being [c] before the first: every averaged read, of whatever channel,
    writes its own row at slot [counter mod 10] and advances the counter
    (modulo 2^32); no other byte touches the counter. *)
Fixpoint slots_written (j c : Z) (cmds : list Z) : list Z :=
  match cmds with
  | [] => []
  | b :: cmds' =>
      if is_averaged (wrap8 b)
      then (if wrap8 b =? averaged_opcode j
            then [c mod VOLTAGE_HISTORY_NUM] else [])
           ++ slots_written j (wrap32 (c + 1)) cmds'
      else slots_written j c cmds'
  end.

(** The number of averaged reads of channel [j] among the bytes. *)
Fixpoint own_reads (j : Z) (cmds : list Z) : nat :=
  match cmds with
  | [] => O
  | b :: cmds' =>
      if wrap8 b =? averaged_opcode j then S (own_reads j cmds')
      else own_reads j cmds'
  end.

(** Every one of the ten slots is in the list. *)
Definition covers (slots : list Z) : bool :=
  forallb (fun p => existsb (Z.eqb p) slots) [0; 1; 2; 3; 4; 5; 6; 7; 8; 9].

(** *** Vocabulary of the further properties *)

(** The number a host reads from a string of ASCII digits. *)
Definition parse_decimal (ds : list Z) : Z :=
  fold_left (fun a d => 10 * a + (d - 48)) ds 0.

(** Time spent in [delay] by a list of events. *)
Fixpoint total_delay (ev : list event) : Z :=
  match ev with
  | [] => 0
  | EvDelay ms :: ev' => ms + total_delay ev'
  | _ :: ev' => total_delay ev'
  end.

(** The inputs converted by a list of events, oldest first. *)
Fixpoint conversions (ev : list event) : list Z :=
  match ev with
  | [] => []
  | EvAnalogRead pin _ :: ev' => pin :: conversions ev'
  | _ :: ev' => conversions ev'
  end.

(** The array has its four rows of ten slots. *)
Definition shape (s : state) : Prop :=
  length (gVoltageHist s) = 4%nat /\
  Forall (fun row => length row = 10%nat) (gVoltageHist s).

(** Charge and discharge are not both on. *)
Definition exclusive (s : state) : Prop :=
  charge_on s && discharge_on s = false.

(** The opcodes that switch one power line on without touching the
    other. *)
Definition line_on_opcodes : list Z := [PIN_DISCHARGE_1; PIN_CHARGE_1].

(** The opcodes that write the indicator. *)
Definition led_opcodes : list Z := [LED_0; LED_1; LED_TOGGLE].

(** The opcodes that write a power line. *)
Definition line_opcodes : list Z :=
  [PIN_DISCHARGE_0; PIN_DISCHARGE_1; PIN_CHARGE_0; PIN_CHARGE_1;
   MODE_IDLE; MODE_CHARGE; MODE_DISCHARGE].

(** * Properties *)

(** ** Running the code: basic facts *)

(** Unfolds the monad's plumbing and nothing else. *)
Ltac mstep :=
  cbv [bind ret gets modify emit undefined delay Serial_write].

Ltac solve_In := simpl; repeat (first [left; reflexivity | right]).

Ltac not_opcode H x OP :=
  destruct (Z.eqb_spec x OP) as [?Heq|_];
  [exfalso; apply H; rewrite Heq; solve_In|].


Lemma setup_startup :
  setup power_on
  = Some (tt, startup,
          [EvDigitalWrite PIN_CHARGE true; EvDigitalWrite PIN_DISCHARGE false;
           EvDigitalWrite PIN_LED true]).
Proof. vm_compute. reflexivity. Qed.

Lemma wrap32_range x : 0 <= wrap32 x < UL_MOD.
Proof. unfold wrap32, UL_MOD. apply Z.mod_pos_bound. lia. Qed.

Lemma wrap32_small x : 0 <= x < UL_MOD -> wrap32 x = x.
Proof. intros H. unfold wrap32. apply Z.mod_small. exact H. Qed.

Lemma state_eta s :
  mkState (pinCharge s) (pinDischarge s) (pinLed s) (gVoltageHist s)
          (gHistCounter s) (rx s) (adcReads s) = s.
Proof. destruct s. reflexivity. Qed.

Lemma startup_wf : wf startup.
Proof.
  unfold wf, startup. cbn [gVoltageHist gHistCounter].
  split; [reflexivity|]. split.
  - repeat constructor; vm_compute; intros Hc; discriminate Hc.
  - vm_compute. split; [intros Hc; discriminate Hc | reflexivity].
Qed.

Section Runs.

Variable w : world.

Lemma getAnalog_run j s :
  In j channels ->
  getAnalog w j s
  = Some (wrap32 (adc w j (adcReads s)), set_adcReads (S (adcReads s)) s,
          [EvAnalogRead j (adc w j (adcReads s))]).
Proof.
  intros Hj. unfold channels in Hj. simpl in Hj.
  destruct Hj as [<-|[<-|[<-|[<-|[]]]]]; reflexivity.
Qed.

Lemma getAnalog_undefined j s : ~ In j channels -> getAnalog w j s = None.
Proof.
  intros Hj. unfold getAnalog.
  destruct (Z.eqb_spec j 0) as [->|_]; [exfalso; apply Hj; simpl; tauto|].
  destruct (Z.eqb_spec j 1) as [->|_]; [exfalso; apply Hj; simpl; tauto|].
  destruct (Z.eqb_spec j 2) as [->|_]; [exfalso; apply Hj; simpl; tauto|].
  destruct (Z.eqb_spec j 3) as [->|_]; [exfalso; apply Hj; simpl; tauto|].
  reflexivity.
Qed.

Lemma sampleLoop_run j n : forall sum s,
  In j channels ->
  sampleLoop w j n sum s
  = Some (sum_samples w j n (adcReads s) sum,
          set_adcReads (adcReads s + n)%nat s,
          sample_events w j n (adcReads s)).
Proof.
  induction n as [|n IH]; intros sum s Hj.
  - cbn. rewrite Nat.add_0_r. destruct s; reflexivity.
  - cbn [sampleLoop sum_samples sample_events]. unfold bind at 1.
    rewrite (getAnalog_run j s Hj). unfold bind, delay, emit.
    rewrite IH by exact Hj. cbn.
    unfold set_adcReads. cbn.
    replace (S (adcReads s + n))%nat with (adcReads s + S n)%nat by lia.
    reflexivity.
Qed.

Lemma sumHist_run j row n : forall i acc s,
  gVoltageHist s !! Z.to_nat j = Some row ->
  0 <= i ->
  (Z.to_nat i + n <= length row)%nat ->
  sumHist j n i acc s
  = Some (sum_ul (take n (drop (Z.to_nat i) row)) acc, s, []).
Proof.
  induction n as [|n IH]; intros i acc s Hrow Hi Hlen.
  - reflexivity.
  - destruct (lookup_lt_is_Some_2 row (Z.to_nat i)) as [v Hv]; [lia|].
    cbn [sumHist]. unfold bind at 1. unfold readHist, bind, gets.
    rewrite Hrow, Hv. unfold ret at 1.
    rewrite IH; [|exact Hrow|lia|lia].
    rewrite (drop_S _ _ _ Hv).
    replace (Z.to_nat (i + 1)) with (S (Z.to_nat i)) by lia.
    reflexivity.
Qed.

Lemma computeAvgVoltage_run j row s :
  gVoltageHist s !! Z.to_nat j = Some row ->
  length row = 10%nat ->
  0 <= gHistCounter s ->
  computeAvgVoltage j s = Some (rolling_avg (gHistCounter s) row, s, []).
Proof.
  intros Hrow Hlen Hc.
  unfold computeAvgVoltage, rolling_avg, floor_ul, bind at 1, gets.
  destruct (Z.ltb_spec (gHistCounter s) VOLTAGE_HISTORY_NUM) as [Hlt|Hge].
  - unfold bind. rewrite (sumHist_run j row); [reflexivity|exact Hrow|lia|].
    unfold VOLTAGE_HISTORY_NUM in Hlt. lia.
  - unfold bind. rewrite (sumHist_run j row); [reflexivity|exact Hrow|lia|].
    unfold VOLTAGE_HISTORY_NUM. lia.
Qed.

Lemma getVoltage_run j row s :
  In j channels ->
  gVoltageHist s !! Z.to_nat j = Some row ->
  length row = 10%nat ->
  0 <= gHistCounter s ->
  let c := gHistCounter s in
  let row' := <[Z.to_nat (c mod VOLTAGE_HISTORY_NUM) := stored_value w j s]> row in
  getVoltage w j s
  = Some (rolling_avg (wrap32 (c + 1)) row',
          mkState (pinCharge s) (pinDischarge s) (pinLed s)
                  (<[Z.to_nat j := row']> (gVoltageHist s))
                  (wrap32 (c + 1)) (rx s)
                  (adcReads s + Z.to_nat NB_ANALOG_RD)%nat,
          sample_events w j (Z.to_nat NB_ANALOG_RD) (adcReads s)).
Proof.
  intros Hj Hrow Hlen Hc c row'.
  assert (Hi : (Z.to_nat (c mod VOLTAGE_HISTORY_NUM) < 10)%nat).
  { pose proof (Z.mod_pos_bound c VOLTAGE_HISTORY_NUM) as Hm.
    unfold VOLTAGE_HISTORY_NUM in *. lia. }
  subst row' c. unfold stored_value, scaled_from.
  unfold getVoltage, uninitialised, writeHist.
  unfold bind, gets, ret, modify.
  rewrite (sampleLoop_run j _ _ s Hj).
  unfold set_adcReads.
  cbn [pinCharge pinDischarge pinLed gVoltageHist gHistCounter rx adcReads].
  rewrite Hrow, Hlen.
  destruct (Nat.ltb_spec (Z.to_nat (gHistCounter s mod VOLTAGE_HISTORY_NUM)) 10)
    as [_|Hbad]; [|lia].
  unfold set_gVoltageHist, set_gHistCounter.
  cbn [pinCharge pinDischarge pinLed gVoltageHist gHistCounter rx adcReads].
  match goal with
  | |- context [computeAvgVoltage j ?s1] =>
      match s1 with
      | mkState _ _ _ (<[_ := ?r]> _) _ _ _ =>
          rewrite (computeAvgVoltage_run j r s1)
      end
  end.
  - cbn [app gHistCounter]. rewrite app_nil_r. reflexivity.
  - cbn [gVoltageHist]. apply list_lookup_insert_eq.
    apply lookup_lt_Some in Hrow. exact Hrow.
  - rewrite length_insert. exact Hlen.
  - cbn [gHistCounter]. apply wrap32_range.
Qed.

End Runs.

(** ** The response encoder *)

Lemma printNumber_digits fuel : forall n acc,
  Forall (fun d => 48 <= d <= 57) acc ->
  Forall (fun d => 48 <= d <= 57) (printNumber fuel n acc).
Proof.
  induction fuel as [|fuel IH]; intros n acc Hacc; cbn [printNumber].
  - constructor; [|exact Hacc].
    pose proof (Z.mod_pos_bound n 10). lia.
  - assert (Hd : Forall (fun d => 48 <= d <= 57) ((48 + n mod 10) :: acc)).
    { constructor; [|exact Hacc]. pose proof (Z.mod_pos_bound n 10). lia. }
    destruct (n / 10 =? 0); [exact Hd | apply IH; exact Hd].
Qed.

Lemma printNumber_nonempty fuel : forall n acc, printNumber fuel n acc <> [].
Proof.
  induction fuel as [|fuel IH]; intros n acc; cbn [printNumber].
  - discriminate.
  - destruct (n / 10 =? 0); [discriminate | apply IH].
Qed.

Lemma serial_out_app e1 e2 : serial_out (e1 ++ e2) = serial_out e1 ++ serial_out e2.
Proof.
  induction e1 as [|e e1 IH]; [reflexivity|].
  destruct e; cbn [serial_out app]; rewrite IH; reflexivity.
Qed.

Lemma serial_out_writes bs : serial_out (map EvSerialWrite bs) = bs.
Proof. induction bs as [|b bs IH]; [reflexivity|]. cbn. rewrite IH. reflexivity. Qed.

Lemma serial_out_samples w j n : forall k, serial_out (sample_events w j n k) = [].
Proof. induction n as [|n IH]; intros k; [reflexivity|]. cbn. apply IH. Qed.

Lemma Serial_write_all_run bs : forall s,
  Forall (fun d => 48 <= d <= 57) bs ->
  Serial_write_all bs s = Some (tt, s, map EvSerialWrite bs).
Proof.
  induction bs as [|b bs IH]; intros s Hbs; [reflexivity|].
  inversion Hbs as [|? ? Hb Hbs']; subst.
  cbn [Serial_write_all map]. mstep.
  rewrite (IH s Hbs'). unfold wrap8. rewrite Z.mod_small by lia. reflexivity.
Qed.

Lemma sendUint_run v s :
  sendUint v s = Some (true, s, map EvSerialWrite (decimal v)).
Proof.
  unfold sendUint, Serial_print. mstep.
  rewrite Serial_write_all_run
    by (apply printNumber_digits; constructor).
  destruct (decimal v) as [|d ds] eqn:Hd.
  - exfalso. exact (printNumber_nonempty _ _ _ Hd).
  - destruct (Z.leb_spec (Z.of_nat (length (d :: ds))) 0) as [Hle|_].
    + cbn [length] in Hle. lia.
    + cbn [app]. rewrite !app_nil_r. reflexivity.
Qed.

Lemma sendBool_run v s :
  sendBool v s = Some (true, s, [EvSerialWrite (if v then 1 else 0)]).
Proof. destruct v; reflexivity. Qed.

(** ** One cycle of [loop] *)

Lemma loop_idle w s : rx s = [] -> loop w s = Some (tt, s, []).
Proof. intros H. unfold loop, bind, Serial_available, gets. rewrite H. reflexivity. Qed.

Lemma loop_recv w s b q :
  rx s = b :: q ->
  loop w s = finish (loop_switch w (wrap8 b) (set_rx q s)).
Proof.
  intros H. unfold loop, Serial_available, Serial_read, finish. mstep.
  rewrite H. cbn [negb]. rewrite H. cbn [app].
  destruct (loop_switch w (wrap8 b) (set_rx q s)) as [[[brk s'] ev]|];
    [|reflexivity].
  destruct brk; cbn [app]; rewrite ?app_nil_r; reflexivity.
Qed.


Lemma loop_switch_unknown w x s :
  ~ In x opcode_table -> loop_switch w x s = Some (false, s, []).
Proof.
  intros H. unfold loop_switch.
  not_opcode H x READ_A0. not_opcode H x READ_V.
  not_opcode H x READ_A1. not_opcode H x READ_V1.
  not_opcode H x READ_A2. not_opcode H x READ_V2.
  not_opcode H x READ_A3. not_opcode H x READ_V3.
  not_opcode H x LED_0. not_opcode H x LED_1. not_opcode H x LED_TOGGLE.
  not_opcode H x PIN_DISCHARGE_0. not_opcode H x PIN_DISCHARGE_1.
  not_opcode H x PIN_CHARGE_0. not_opcode H x PIN_CHARGE_1.
  not_opcode H x MODE_IDLE. not_opcode H x MODE_CHARGE.
  not_opcode H x MODE_DISCHARGE. not_opcode H x PING.
  reflexivity.
Qed.

Lemma loop_switch_plain w x s :
  In x plain_opcodes ->
  exists s' ev,
    loop_switch w x s = Some (true, s', ev) /\
    serial_out ev = [] /\
    Forall analog_ok ev /\
    gVoltageHist s' = gVoltageHist s /\ gHistCounter s' = gHistCounter s /\
    rx s' = rx s /\ adcReads s' = adcReads s.
Proof.
  intros H. unfold plain_opcodes in H. simpl in H.
  repeat (destruct H as [<-|H];
          [eexists; eexists; split; [reflexivity|];
           repeat split; repeat constructor|]).
  destruct H.
Qed.

(** ** Response framing *)

(** C1.  For an opcode of the plain class (LED_0, LED_1,
    PIN_DISCHARGE_0/1, PIN_CHARGE_0/1, MODE_IDLE, MODE_CHARGE,
    MODE_DISCHARGE, PING) the claim expects the bytes [0x00; 0xFF].  The
    sketch runs the action and then writes the terminator alone: the bytes
    that reach the serial port are exactly [0xFF], with no payload byte
    before it. *)
Theorem plain_opcode_sends_only_stop_byte w s b q :
  rx s = b :: q ->
  In (wrap8 b) plain_opcodes ->
  exists s' ev,
    loop w s = Some (tt, s', ev) /\ serial_out ev = [STOP_BYTE].
Proof.
  intros Hrx Hop. rewrite (loop_recv w s b q Hrx).
  destruct (loop_switch_plain w (wrap8 b) (set_rx q s) Hop)
    as (s' & ev & Hrun & Hout & _).
  rewrite Hrun. cbn [finish]. exists s', (ev ++ [EvSerialWrite STOP_BYTE]).
  split; [reflexivity|].
  rewrite serial_out_app, Hout. reflexivity.
Qed.

Lemma plain_opcode_sends_only_stop_byte_witness :
  rx (set_rx [LED_0] startup) = [LED_0] /\
  In (wrap8 LED_0) plain_opcodes /\
  exists s' ev,
    loop (const_world 0 0) (set_rx [LED_0] startup) = Some (tt, s', ev) /\
    serial_out ev = [STOP_BYTE].
Proof.
  split; [reflexivity|]. split; [solve_In|].
  apply (plain_opcode_sends_only_stop_byte
           (const_world 0 0) (set_rx [LED_0] startup) LED_0 []);
    [reflexivity | solve_In].
Defined.

(** C5.  A received byte that is no opcode of the table is consumed and
    nothing else happens: the state is the one before with the byte taken
    off the receive buffer (latches, voltage history and counter
    untouched) and no event is logged, so no byte is sent, not even the
    terminator. *)
Theorem unknown_opcode_silent w s b q :
  rx s = b :: q ->
  ~ In (wrap8 b) opcode_table ->
  loop w s = Some (tt, set_rx q s, []).
Proof.
  intros Hrx Hop. rewrite (loop_recv w s b q Hrx).
  rewrite (loop_switch_unknown w (wrap8 b) (set_rx q s) Hop).
  reflexivity.
Qed.

Lemma unknown_opcode_silent_witness :
  rx (set_rx [0x99] startup) = [0x99] /\
  ~ In (wrap8 0x99) opcode_table /\
  loop (const_world 0 0) (set_rx [0x99] startup)
  = Some (tt, set_rx [] (set_rx [0x99] startup), []).
Proof.
  assert (Hno : ~ In (wrap8 0x99) opcode_table).
  { simpl. intros H.
    repeat (destruct H as [H|H]; [discriminate H|]). exact H. }
  split; [reflexivity|]. split; [exact Hno|].
  apply (unknown_opcode_silent
           (const_world 0 0) (set_rx [0x99] startup) 0x99 []);
    [reflexivity | exact Hno].
Defined.

(** ** Pin actions *)

(** C6.  Whatever the latches were: MODE_CHARGE leaves discharge off and
    charge on, MODE_DISCHARGE leaves charge off and discharge on,
    MODE_IDLE leaves both off.  Each action writes the line it turns off
    first (for MODE_CHARGE the discharge pin, for MODE_DISCHARGE the charge
    pin, whose level is the opposite of its meaning), and in none of the
    states the board goes through while the action's events happen are
    both lines on. *)
Theorem mode_actions w s q :
  (let ev := [EvDigitalWrite PIN_DISCHARGE false; EvDigitalWrite PIN_CHARGE false;
              EvSerialWrite STOP_BYTE] in
   let s0 := set_rx (MODE_CHARGE :: q) s in
   let s' := set_rx q (set_pinCharge false (set_pinDischarge false s)) in
   loop w s0 = Some (tt, s', ev) /\
   discharge_on s' = false /\ charge_on s' = true /\
   Forall (fun t => charge_on t && discharge_on t = false) (states_through s0 ev))
  /\
  (let ev := [EvDigitalWrite PIN_CHARGE true; EvDigitalWrite PIN_DISCHARGE true;
              EvSerialWrite STOP_BYTE] in
   let s0 := set_rx (MODE_DISCHARGE :: q) s in
   let s' := set_rx q (set_pinDischarge true (set_pinCharge true s)) in
   loop w s0 = Some (tt, s', ev) /\
   charge_on s' = false /\ discharge_on s' = true /\
   Forall (fun t => charge_on t && discharge_on t = false) (states_through s0 ev))
  /\
  (let ev := [EvDigitalWrite PIN_DISCHARGE false; EvDigitalWrite PIN_CHARGE true;
              EvSerialWrite STOP_BYTE] in
   let s0 := set_rx (MODE_IDLE :: q) s in
   let s' := set_rx q (set_pinCharge true (set_pinDischarge false s)) in
   loop w s0 = Some (tt, s', ev) /\
   charge_on s' = false /\ discharge_on s' = false /\
   Forall (fun t => charge_on t && discharge_on t = false) (states_through s0 ev)).
Proof.
  destruct s as [pc pd pl h c r n].
  repeat split; try reflexivity;
    repeat constructor; cbn; destruct pc; reflexivity.
Qed.

(** C7.  LED_TOGGLE twice brings the board back to the state it was in
    (only the two opcodes are gone from the receive buffer); the payload
    bytes of the two responses are the new indicator levels, one 0 and one
    1.  From the startup state (indicator on) the first response is
    [0x00; 0xFF] and the second [0x01; 0xFF]. *)
Theorem led_toggle_involution w s q :
  (let s0 := set_rx (LED_TOGGLE :: LED_TOGGLE :: q) s in
   let l := pinLed s in
   exists s1,
     loop w s0
     = Some (tt, s1, [EvDigitalWrite PIN_LED (negb l);
                      EvSerialWrite (Z.b2z (negb l)); EvSerialWrite STOP_BYTE]) /\
     loop w s1
     = Some (tt, set_rx q s, [EvDigitalWrite PIN_LED l;
                              EvSerialWrite (Z.b2z l); EvSerialWrite STOP_BYTE]) /\
     Z.b2z (negb l) + Z.b2z l = 1)
  /\
  reply w LED_TOGGLE startup = Some [0x00; 0xFF] /\
  exists s1,
    state_after w [LED_TOGGLE] startup = Some s1 /\
    reply w LED_TOGGLE s1 = Some [0x01; 0xFF].
Proof.
  split.
  - destruct s as [pc pd pl h c r n]. cbn [pinLed].
    exists (set_rx (LED_TOGGLE :: q) (set_pinLed (negb pl) (mkState pc pd pl h c r n))).
    destruct pl; repeat split; reflexivity.
  - split; [reflexivity|].
    eexists. split; reflexivity.
Qed.

(** ** Reads *)

Lemma analog_ok_samples w j n : forall k,
  In j channels -> Forall analog_ok (sample_events w j n k).
Proof.
  induction n as [|n IH]; intros k Hj; cbn [sample_events].
  - constructor.
  - constructor; [exact Hj|]. constructor; [exact I|]. apply IH. exact Hj.
Qed.

Lemma analog_ok_writes bs : Forall analog_ok (map EvSerialWrite bs).
Proof. induction bs; cbn; constructor; [exact I | assumption]. Qed.

Lemma loop_switch_raw w j s :
  In j channels ->
  loop_switch w (raw_opcode j) s
  = Some (true, set_adcReads (S (adcReads s)) s,
          EvAnalogRead j (adc w j (adcReads s))
          :: map EvSerialWrite (decimal (wrap32 (adc w j (adcReads s))))).
Proof.
  intros Hj.
  assert (Hsw : loop_switch w (raw_opcode j) s
                = (let* v := getAnalog w j in sendUint v;; ret true) s).
  { unfold channels in Hj. simpl in Hj.
    destruct Hj as [<-|[<-|[<-|[<-|[]]]]]; reflexivity. }
  rewrite Hsw. unfold bind at 1. rewrite (getAnalog_run w j s Hj).
  unfold bind at 1. rewrite sendUint_run. cbn [ret app].
  rewrite app_nil_r. reflexivity.
Qed.

Lemma loop_switch_toggle w s :
  loop_switch w LED_TOGGLE s
  = Some (true, set_pinLed (negb (pinLed s)) s,
          [EvDigitalWrite PIN_LED (negb (pinLed s));
           EvSerialWrite (Z.b2z (negb (pinLed s)))]).
Proof. destruct s as [pc pd pl h c r n]. destruct pl; reflexivity. Qed.

Lemma wf_row s j :
  wf s -> In j channels ->
  exists row,
    gVoltageHist s !! Z.to_nat j = Some row /\
    length row = 10%nat /\
    Forall (fun v => 0 <= v <= HIST_MAX) row.
Proof.
  intros (Hlen & Hrows & _) Hj.
  destruct (lookup_lt_is_Some_2 (gVoltageHist s) (Z.to_nat j)) as [row Hrow].
  { rewrite Hlen. unfold channels in Hj. simpl in Hj.
    destruct Hj as [<-|[<-|[<-|[<-|[]]]]]; simpl; lia. }
  exists row. split; [exact Hrow|].
  rewrite Forall_forall in Hrows. apply Hrows.
  apply list_elem_of_lookup. exists (Z.to_nat j). exact Hrow.
Qed.

Lemma loop_switch_averaged w j s :
  In j channels -> wf s ->
  exists row,
    gVoltageHist s !! Z.to_nat j = Some row /\
    let c := gHistCounter s in
    let row' :=
      <[Z.to_nat (c mod VOLTAGE_HISTORY_NUM) := stored_value w j s]> row in
    loop_switch w (averaged_opcode j) s
    = Some (true,
            mkState (pinCharge s) (pinDischarge s) (pinLed s)
                    (<[Z.to_nat j := row']> (gVoltageHist s))
                    (wrap32 (c + 1)) (rx s)
                    (adcReads s + Z.to_nat NB_ANALOG_RD)%nat,
            sample_events w j (Z.to_nat NB_ANALOG_RD) (adcReads s)
            ++ map EvSerialWrite (decimal (rolling_avg (wrap32 (c + 1)) row'))).
Proof.
  intros Hj Hwf.
  destruct (wf_row s j Hwf Hj) as (row & Hrow & Hlen & _).
  exists row. split; [exact Hrow|]. intros c row'.
  assert (Hsw : loop_switch w (averaged_opcode j) s
                = (let* v := getVoltage w j in sendUint v;; ret true) s).
  { unfold channels in Hj. simpl in Hj.
    destruct Hj as [<-|[<-|[<-|[<-|[]]]]]; reflexivity. }
  rewrite Hsw. unfold bind at 1.
  rewrite (getVoltage_run w j row s Hj Hrow Hlen) by (destruct Hwf as (_ & _ & ?); lia).
  unfold bind at 1. rewrite sendUint_run. cbn [ret app].
  rewrite app_nil_r. reflexivity.
Qed.

Lemma opcode_cases x :
  In x opcode_table ->
  (exists j, In j channels /\ x = raw_opcode j) \/
  (exists j, In j channels /\ x = averaged_opcode j) \/
  x = LED_TOGGLE \/ In x plain_opcodes.
Proof.
  intros H. unfold opcode_table in H. rewrite !in_app_iff in H.
  destruct H as [H|[H|[H|H]]].
  - left. simpl in H.
    destruct H as [<-|[<-|[<-|[<-|[]]]]];
      [exists 0|exists 1|exists 2|exists 3]; (split; [solve_In|reflexivity]).
  - right; left. simpl in H.
    destruct H as [<-|[<-|[<-|[<-|[]]]]];
      [exists 0|exists 1|exists 2|exists 3]; (split; [solve_In|reflexivity]).
  - right; right; left. simpl in H. destruct H as [<-|[]]. reflexivity.
  - right; right; right. exact H.
Qed.

Lemma averaged_opcode_In j : In j channels -> In (averaged_opcode j) averaged_opcodes.
Proof.
  intros Hj. unfold channels in Hj. simpl in Hj.
  destruct Hj as [<-|[<-|[<-|[<-|[]]]]]; solve_In.
Qed.

(** Every opcode but the averaged reads leaves the history, the counter
    and the receive buffer alone. *)
Lemma loop_switch_frame w x s :
  ~ In x averaged_opcodes ->
  exists brk s' ev,
    loop_switch w x s = Some (brk, s', ev) /\
    gVoltageHist s' = gVoltageHist s /\ gHistCounter s' = gHistCounter s /\
    rx s' = rx s /\ Forall analog_ok ev.
Proof.
  intros Hx.
  destruct (in_dec Z.eq_dec x opcode_table) as [Hin|Hout].
  - destruct (opcode_cases x Hin) as [(j & Hj & ->)|[(j & Hj & ->)|[->|Hp]]].
    + rewrite (loop_switch_raw w j s Hj). do 3 eexists.
      split; [reflexivity|]. repeat split.
      constructor; [exact Hj | apply analog_ok_writes].
    + exfalso. apply Hx. apply averaged_opcode_In. exact Hj.
    + rewrite loop_switch_toggle. do 3 eexists.
      split; [reflexivity|]. repeat split. repeat constructor.
    + destruct (loop_switch_plain w x s Hp)
        as (s' & ev & Hrun & _ & Hok & Hh & Hc & Hr & _).
      exists true, s', ev. repeat split; assumption.
  - rewrite (loop_switch_unknown w x s Hout). do 3 eexists.
    split; [reflexivity|]. repeat split. constructor.
Qed.

Lemma stored_value_bound w j s : 0 <= stored_value w j s <= HIST_MAX.
Proof.
  unfold stored_value, scaled_from, HIST_MAX.
  match goal with |- context [wrap32 ?x] => pose proof (wrap32_range x) as Hr end.
  split.
  - apply Z.div_pos; [lia | reflexivity].
  - apply Z.div_le_mono; [reflexivity | lia].
Qed.

Lemma averaged_state_wf w j s row pc pd pl q n i :
  wf s ->
  gVoltageHist s !! Z.to_nat j = Some row ->
  wf (mkState pc pd pl
        (<[Z.to_nat j := <[i := stored_value w j s]> row]> (gVoltageHist s))
        (wrap32 (gHistCounter s + 1)) q n).
Proof.
  intros (Hl & Hrows & Hc) Hrow.
  assert (Hr : length row = 10%nat /\ Forall (fun v => 0 <= v <= HIST_MAX) row).
  { rewrite Forall_forall in Hrows. apply Hrows.
    apply list_elem_of_lookup. exists (Z.to_nat j). exact Hrow. }
  destruct Hr as (Hlen & Hb).
  unfold wf. cbn [gVoltageHist gHistCounter].
  split; [rewrite length_insert; exact Hl|].
  split; [|apply wrap32_range].
  apply Forall_insert; [exact Hrows|].
  split; [rewrite length_insert; exact Hlen|].
  apply Forall_insert; [exact Hb | apply stored_value_bound].
Qed.

(** One cycle of [loop] is defined on every well-shaped state, keeps the
    shape, and converts only inputs 0 to 3. *)
Lemma loop_total w s :
  wf s ->
  exists s' ev,
    loop w s = Some (tt, s', ev) /\ wf s' /\ Forall analog_ok ev /\
    rx s' = tail (rx s).
Proof.
  intros Hwf. destruct (rx s) as [|b q] eqn:Hrx.
  - rewrite (loop_idle w s Hrx). exists s, []. repeat split; try apply Hwf.
    + constructor.
    + rewrite Hrx. reflexivity.
  - rewrite (loop_recv w s b q Hrx). cbn [tail].
    assert (Hwf0 : wf (set_rx q s)) by exact Hwf.
    destruct (in_dec Z.eq_dec (wrap8 b) averaged_opcodes) as [Hin|Hout].
    + assert (Hj : exists j, In j channels /\ wrap8 b = averaged_opcode j).
      { unfold averaged_opcodes in Hin. simpl in Hin.
        destruct Hin as [<-|[<-|[<-|[<-|[]]]]];
          [exists 0|exists 1|exists 2|exists 3]; (split; [solve_In|reflexivity]). }
      destruct Hj as (j & Hj & ->).
      destruct (loop_switch_averaged w j (set_rx q s) Hj Hwf0) as (row & Hrow & Hrun).
      cbv zeta in Hrun. rewrite Hrun. cbn [finish].
      destruct (wf_row _ j Hwf0 Hj) as (row0 & Hrow0 & Hlen & Hb).
      rewrite Hrow in Hrow0. injection Hrow0 as <-.
      do 2 eexists. split; [reflexivity|]. split; [|split].
      * apply averaged_state_wf; assumption.
      * apply Forall_app. split; [apply Forall_app; split|].
        -- apply analog_ok_samples. exact Hj.
        -- apply analog_ok_writes.
        -- repeat constructor.
      * reflexivity.
    + destruct (loop_switch_frame w (wrap8 b) (set_rx q s) Hout)
        as (brk & s' & ev & Hrun & Hh & Hc & Hr & Hok).
      rewrite Hrun. cbn [finish]. do 2 eexists. split; [reflexivity|].
      split; [|split].
      * unfold wf. rewrite Hh, Hc. exact Hwf.
      * destruct brk; [|exact Hok].
        apply Forall_app. split; [exact Hok | repeat constructor].
      * exact Hr.
Qed.

(** The history never holds a value above [HIST_MAX]. *)
Lemma hist_bounded w s s' ev :
  wf s -> loop w s = Some (tt, s', ev) ->
  Forall (fun row => Forall (fun v => 0 <= v <= HIST_MAX) row) (gVoltageHist s').
Proof.
  intros Hwf Hrun.
  destruct (loop_total w s Hwf) as (s1 & ev1 & Hrun1 & (_ & Hrows & _) & _).
  rewrite Hrun in Hrun1. injection Hrun1 as <- <-.
  eapply Forall_impl; [exact Hrows|]. intros row [_ H]. exact H.
Qed.

(** C10.  A cycle of [loop] on any received byte that is not one of the
    four averaged-read opcodes (so every raw read, LED, pin, mode and ping
    opcode, and every unknown byte) leaves the whole voltage history and
    the sample counter exactly as they were. *)
Theorem only_averaged_reads_touch_history w s b q :
  rx s = b :: q ->
  ~ In (wrap8 b) averaged_opcodes ->
  exists s' ev,
    loop w s = Some (tt, s', ev) /\
    gVoltageHist s' = gVoltageHist s /\
    gHistCounter s' = gHistCounter s.
Proof.
  intros Hrx Hop. rewrite (loop_recv w s b q Hrx).
  destruct (loop_switch_frame w (wrap8 b) (set_rx q s) Hop)
    as (brk & s' & ev & Hrun & Hh & Hc & _).
  rewrite Hrun. cbn [finish]. do 2 eexists.
  split; [reflexivity|]. split; assumption.
Qed.

Lemma only_averaged_reads_touch_history_witness :
  rx (set_rx [READ_A1] startup) = [READ_A1] /\
  ~ In (wrap8 READ_A1) averaged_opcodes /\
  exists s' ev,
    loop (const_world 512 0) (set_rx [READ_A1] startup) = Some (tt, s', ev) /\
    gVoltageHist s' = gVoltageHist (set_rx [READ_A1] startup) /\
    gHistCounter s' = gHistCounter (set_rx [READ_A1] startup).
Proof.
  assert (Hno : ~ In (wrap8 READ_A1) averaged_opcodes).
  { simpl. intros H.
    repeat (destruct H as [H|H]; [discriminate H|]). exact H. }
  split; [reflexivity|]. split; [exact Hno|].
  apply (only_averaged_reads_touch_history
           (const_world 512 0) (set_rx [READ_A1] startup) READ_A1 []);
    [reflexivity | exact Hno].
Defined.

(** C9.  [getAnalog] returns the conversion of input [j] exactly when
    [j] is one of 0, 1, 2, 3 (a sample in the range of [unsigned long]
    comes back as it is) and has no defined result for any other [j].
    The dispatcher never leaves that domain: on every well-shaped state a
    cycle of [loop] is defined, and every conversion it makes is on one of
    the four inputs. *)
Theorem getAnalog_contract w j s :
  getAnalog w j s
  = (if existsb (Z.eqb j) channels
     then Some (wrap32 (adc w j (adcReads s)), set_adcReads (S (adcReads s)) s,
                [EvAnalogRead j (adc w j (adcReads s))])
     else None)
  /\
  (0 <= adc w j (adcReads s) < UL_MOD ->
   wrap32 (adc w j (adcReads s)) = adc w j (adcReads s))
  /\
  (wf s ->
   exists s' ev, loop w s = Some (tt, s', ev) /\ Forall analog_ok ev).
Proof.
  split; [|split].
  - destruct (existsb (Z.eqb j) channels) eqn:He.
    + apply getAnalog_run. apply existsb_exists in He.
      destruct He as (x & Hx & Heq). apply Z.eqb_eq in Heq. subst x. exact Hx.
    + apply getAnalog_undefined. intros Hj.
      assert (Ht : existsb (Z.eqb j) channels = true).
      { apply existsb_exists. exists j. split; [exact Hj | apply Z.eqb_refl]. }
      rewrite Ht in He. discriminate He.
  - apply wrap32_small.
  - intros Hwf. destruct (loop_total w s Hwf) as (s' & ev & Hrun & _ & Hok & _).
    exists s', ev. split; assumption.
Qed.

Lemma getAnalog_contract_witness :
  (0 <= adc (const_world 512 0) 2 (adcReads (set_rx [READ_V2] startup)) < UL_MOD) /\
  wf (set_rx [READ_V2] startup) /\
  getAnalog (const_world 512 0) 2 (set_rx [READ_V2] startup)
  = Some (512, set_adcReads 1 (set_rx [READ_V2] startup), [EvAnalogRead 2 512]) /\
  exists s' ev,
    loop (const_world 512 0) (set_rx [READ_V2] startup) = Some (tt, s', ev) /\
    Forall analog_ok ev.
Proof.
  pose proof (getAnalog_contract (const_world 512 0) 2 (set_rx [READ_V2] startup))
    as (Hrun & Hsame & Hloop).
  assert (Hr : 0 <= adc (const_world 512 0) 2 (adcReads (set_rx [READ_V2] startup))
               < UL_MOD) by (vm_compute; split; [discriminate | reflexivity]).
  split; [exact Hr|]. split; [exact startup_wf|].
  split; [exact Hrun|]. apply Hloop. exact startup_wf.
Defined.

(** ** The averager *)

Lemma HIST_MAX_value : HIST_MAX = 4198404.
Proof. reflexivity. Qed.

Lemma UL_MOD_value : UL_MOD = 4294967296.
Proof. reflexivity. Qed.

Lemma sum_ul_replicate n v : forall acc,
  0 <= acc -> 0 <= v ->
  acc + Z.of_nat n * v < UL_MOD ->
  sum_ul (replicate n v) acc = acc + Z.of_nat n * v.
Proof.
  induction n as [|n IH]; intros acc Hacc Hv Hlt.
  - cbn. lia.
  - assert (Hnv : 0 <= Z.of_nat n * v) by (apply Z.mul_nonneg_nonneg; lia).
    rewrite Nat2Z.inj_succ, Z.mul_succ_l in Hlt |- *.
    cbn [replicate sum_ul fold_left]. fold (sum_ul (replicate n v) (wrap32 (acc + v))).
    rewrite wrap32_small by lia. rewrite IH by lia. ring.
Qed.

Lemma rolling_avg_replicate c v :
  0 <= c -> 0 <= v <= HIST_MAX ->
  rolling_avg c (replicate 10 v) = v.
Proof.
  intros Hc Hv. rewrite HIST_MAX_value in Hv. unfold rolling_avg.
  rewrite !take_replicate.
  assert (Hsum : forall k : nat, (k <= 10)%nat ->
                   sum_ul (replicate k v) 0 = v * Z.of_nat k).
  { intros k Hk. rewrite sum_ul_replicate; [ring|lia|lia|].
    rewrite UL_MOD_value. nia. }
  destruct (Z.ltb_spec c VOLTAGE_HISTORY_NUM) as [Hlt|Hge];
    unfold VOLTAGE_HISTORY_NUM in *.
  - rewrite Hsum by lia.
    rewrite wrap32_small by (rewrite UL_MOD_value; lia).
    replace (Z.of_nat (Z.to_nat (c + 1) `min` 10)) with (c + 1) by lia.
    apply Z.div_mul. lia.
  - rewrite Hsum by lia.
    replace (Z.of_nat (Z.to_nat 10 `min` 10)) with 10 by lia.
    apply Z.div_mul. lia.
Qed.

(** C2.  From the startup state the first averaged read of any channel
    does not return its own scaled sample [v]: [computeAvgVoltage] runs
    after the counter went from 0 to 1, so it sums slots 0 and 1 and
    halves, and slot 1 still holds the seed 1500.  The value returned is
    [(v + 1500) / 2], where the mean of the one entry inserted so far is
    [v] itself. *)
Theorem first_averaged_read_counts_seed w j :
  In j channels ->
  let v := stored_value w j startup in
  spec_mean [v] = v /\
  exists s' ev,
    getVoltage w j startup = Some ((v + CHARGE_THRESHOLD) / 2, s', ev) /\
    gVoltageHist s' !! Z.to_nat j = Some (v :: replicate 9 CHARGE_THRESHOLD).
Proof.
  intros Hj v.
  split; [unfold spec_mean; cbn [fold_left length]; apply Z.div_1_r|].
  pose proof (stored_value_bound w j startup) as Hv. fold v in Hv.
  rewrite HIST_MAX_value in Hv.
  assert (Hrow : gVoltageHist startup !! Z.to_nat j
                 = Some (replicate 10 CHARGE_THRESHOLD)).
  { unfold channels in Hj. simpl in Hj.
    destruct Hj as [<-|[<-|[<-|[<-|[]]]]]; reflexivity. }
  rewrite (getVoltage_run w j _ startup Hj Hrow);
    [|reflexivity | cbn; lia].
  fold v. do 2 eexists. split.
  - f_equal. f_equal. f_equal.
    change (gHistCounter startup) with 0.
    change (wrap32 (0 + 1)) with 1.
    change (Z.to_nat (0 mod VOLTAGE_HISTORY_NUM)) with 0%nat.
    unfold rolling_avg.
    change (1 <? VOLTAGE_HISTORY_NUM) with true. cbv iota.
    change (wrap32 (1 + 1)) with 2.
    change (Z.to_nat (1 + 1)) with 2%nat.
    cbn [replicate insert list_insert take sum_ul fold_left].
    rewrite Z.add_0_l. rewrite (wrap32_small v) by (rewrite UL_MOD_value; lia).
    rewrite wrap32_small by (rewrite UL_MOD_value; unfold CHARGE_THRESHOLD; lia).
    reflexivity.
  - cbn [gVoltageHist]. rewrite list_lookup_insert_eq
      by (apply lookup_lt_Some in Hrow; exact Hrow).
    reflexivity.
Qed.

Lemma first_averaged_read_counts_seed_witness :
  In 0 channels /\
  stored_value (const_world 0 0) 0 startup = 0 /\
  (0 + CHARGE_THRESHOLD) / 2 = 750 /\
  spec_mean [stored_value (const_world 0 0) 0 startup]
  = stored_value (const_world 0 0) 0 startup /\
  exists s' ev,
    getVoltage (const_world 0 0) 0 startup
    = Some ((stored_value (const_world 0 0) 0 startup + CHARGE_THRESHOLD) / 2, s', ev) /\
    gVoltageHist s' !! Z.to_nat 0
    = Some (stored_value (const_world 0 0) 0 startup :: replicate 9 CHARGE_THRESHOLD).
Proof.
  split; [solve_In|]. split; [vm_compute; reflexivity|].
  split; [reflexivity|].
  apply (first_averaged_read_counts_seed (const_world 0 0) 0). solve_In.
Defined.

(** With samples in the range of the 10-bit converter the sampling loop
    never wraps: it adds the samples to what the accumulator held. *)
Lemma sum_samples_exact w j n : forall k sum,
  (forall i, 0 <= adc w j i <= 1023) ->
  0 <= sum -> sum + Z.of_nat n * 1023 < UL_MOD ->
  sum_samples w j n k sum
  = fold_left Z.add (map (fun i => adc w j (k + i)%nat) (seq 0 n)) sum
  /\ sum <= sum_samples w j n k sum <= sum + Z.of_nat n * 1023.
Proof.
  induction n as [|n IH]; intros k sum Hadc Hsum Hlt.
  - cbn. lia.
  - rewrite Nat2Z.inj_succ, Z.mul_succ_l in Hlt |- *.
    pose proof (Hadc k) as Hk.
    cbn [sum_samples seq map fold_left].
    rewrite (wrap32_small (adc w j k)) by (rewrite UL_MOD_value in *; lia).
    rewrite (wrap32_small (sum + adc w j k)) by lia.
    destruct (IH (S k) (sum + adc w j k) Hadc) as [Heq Hb]; [lia|lia|].
    rewrite Heq in Hb |- *. rewrite Nat.add_0_r.
    rewrite <- seq_shift, map_map.
    rewrite (map_ext (fun i => adc w j (k + S i)%nat)
                     (fun i => adc w j (S k + i)%nat))
      by (intros i; f_equal; lia).
    split; [reflexivity | lia].
Qed.

(** When the accumulator does start at zero, the value stored is the one
    the specification's pipeline gives. *)
Lemma scaled_from_zero w j k :
  (forall i, 0 <= adc w j i <= 1023) ->
  scaled_from w j k 0 = spec_scaled (samples_of w j k).
Proof.
  intros Hadc. unfold scaled_from, spec_scaled, samples_of.
  change (Z.to_nat NB_ANALOG_RD) with 204%nat.
  destruct (sum_samples_exact w j 204 k 0 Hadc) as [Heq Hb];
    [lia | rewrite UL_MOD_value; lia |].
  rewrite Heq in Hb |- *.
  set (sum := fold_left Z.add _ 0) in *.
  unfold NB_ANALOG_RD, CAN_REF, CAN_BITSIZE.
  assert (Hm : 0 <= sum / 204 <= 1023).
  { split; [apply Z.div_pos; lia|]. apply Z.div_le_upper_bound; lia. }
  rewrite wrap32_small by (rewrite UL_MOD_value; lia).
  reflexivity.
Qed.

(** C3.  The sampling loop of [getVoltage] adds the 204 samples to a
    local that has no initialiser, so the sum starts from whatever the
    local holds and not from zero.  With every sample 0 and the local
    holding 204, the read stores 2 in slot 0 and returns 751, while the
    pipeline of the claim (sum from zero, mean, scaling) gives 0 for the
    same samples. *)
Theorem averaged_read_sum_not_initialised :
  let w := const_world 0 204 in
  match getVoltage w 0 startup with
  | Some (v, s', _) =>
      v = 751 /\
      gVoltageHist s' !! 0%nat = Some (2 :: replicate 9 CHARGE_THRESHOLD) /\
      spec_scaled (samples_of w 0 0) = 0
  | None => False
  end.
Proof. vm_compute. repeat split. Qed.

Lemma next_slot_differs c :
  0 <= c < UL_MOD ->
  wrap32 (c + 1) mod VOLTAGE_HISTORY_NUM <> c mod VOLTAGE_HISTORY_NUM.
Proof.
  intros Hc. unfold VOLTAGE_HISTORY_NUM. rewrite UL_MOD_value in Hc.
  destruct (Z.eq_dec c 4294967295) as [->|Hne].
  - vm_compute. discriminate.
  - rewrite wrap32_small by (rewrite UL_MOD_value; lia).
    pose proof (Z.div_mod c 10). pose proof (Z.div_mod (c + 1) 10).
    pose proof (Z.mod_pos_bound c 10). pose proof (Z.mod_pos_bound (c + 1) 10).
    lia.
Qed.

(** C4.  One counter serves all four channels.  An averaged read of any
    channel [j] writes row [j] at slot [gHistCounter mod 10], adds one to
    [gHistCounter] (modulo 2^32) and makes its warm-up test on that same
    counter; a following averaged read of any channel [j'], the same or
    another, therefore writes its own row at the next slot, which is never
    the slot it would have used without the first read, and makes its
    warm-up test on a counter that counts both reads. *)
Theorem shared_sample_counter w s j j' :
  In j channels -> In j' channels -> wf s ->
  let c := gHistCounter s in
  exists row1 row2 v1 s1 e1 v2 s2 e2,
    gVoltageHist s !! Z.to_nat j = Some row1 /\
    getVoltage w j s = Some (v1, s1, e1) /\
    gHistCounter s1 = wrap32 (c + 1) /\
    gVoltageHist s1
    = <[Z.to_nat j :=
          <[Z.to_nat (c mod VOLTAGE_HISTORY_NUM) := stored_value w j s]> row1]>
        (gVoltageHist s) /\
    v1 = rolling_avg (gHistCounter s1)
           (<[Z.to_nat (c mod VOLTAGE_HISTORY_NUM) := stored_value w j s]> row1) /\
    gVoltageHist s1 !! Z.to_nat j' = Some row2 /\
    getVoltage w j' s1 = Some (v2, s2, e2) /\
    gHistCounter s2 = wrap32 (wrap32 (c + 1) + 1) /\
    gVoltageHist s2
    = <[Z.to_nat j' :=
          <[Z.to_nat (gHistCounter s1 mod VOLTAGE_HISTORY_NUM)
            := stored_value w j' s1]> row2]>
        (gVoltageHist s1) /\
    v2 = rolling_avg (gHistCounter s2)
           (<[Z.to_nat (gHistCounter s1 mod VOLTAGE_HISTORY_NUM)
              := stored_value w j' s1]> row2) /\
    gHistCounter s1 mod VOLTAGE_HISTORY_NUM <> c mod VOLTAGE_HISTORY_NUM.
Proof.
  intros Hj Hj' Hwf c.
  destruct (wf_row s j Hwf Hj) as (row1 & Hrow1 & Hlen1 & _).
  assert (Hc : 0 <= c < UL_MOD) by (destruct Hwf as (_ & _ & ?); assumption).
  pose proof (getVoltage_run w j row1 s Hj Hrow1 Hlen1 (proj1 Hc)) as Hrun1.
  cbv zeta in Hrun1. fold c in Hrun1.
  match type of Hrun1 with _ = Some (_, ?st, _) => set (s1 := st) in * end.
  assert (Hwf1 : wf s1) by (apply averaged_state_wf; assumption).
  destruct (wf_row s1 j' Hwf1 Hj') as (row2 & Hrow2 & Hlen2 & _).
  assert (Hc1 : 0 <= gHistCounter s1) by (cbn [s1 gHistCounter]; apply wrap32_range).
  pose proof (getVoltage_run w j' row2 s1 Hj' Hrow2 Hlen2 Hc1) as Hrun2.
  cbv zeta in Hrun2.
  exists row1, row2. do 6 eexists.
  split; [exact Hrow1|]. split; [exact Hrun1|].
  split; [reflexivity|]. split; [reflexivity|]. split; [reflexivity|].
  split; [exact Hrow2|]. split; [exact Hrun2|].
  split; [reflexivity|]. split; [reflexivity|]. split; [reflexivity|].
  cbn [s1 gHistCounter]. apply next_slot_differs. exact Hc.
Qed.

Lemma shared_sample_counter_witness :
  In 0 channels /\ In 1 channels /\ wf startup /\
  exists row1 row2 v1 s1 e1 v2 s2 e2,
    gVoltageHist startup !! Z.to_nat 0 = Some row1 /\
    getVoltage (const_world 0 0) 0 startup = Some (v1, s1, e1) /\
    gHistCounter s1 = wrap32 (gHistCounter startup + 1) /\
    gVoltageHist s1
    = <[Z.to_nat 0 :=
          <[Z.to_nat (gHistCounter startup mod VOLTAGE_HISTORY_NUM)
            := stored_value (const_world 0 0) 0 startup]> row1]>
        (gVoltageHist startup) /\
    v1 = rolling_avg (gHistCounter s1)
           (<[Z.to_nat (gHistCounter startup mod VOLTAGE_HISTORY_NUM)
              := stored_value (const_world 0 0) 0 startup]> row1) /\
    gVoltageHist s1 !! Z.to_nat 1 = Some row2 /\
    getVoltage (const_world 0 0) 1 s1 = Some (v2, s2, e2) /\
    gHistCounter s2 = wrap32 (wrap32 (gHistCounter startup + 1) + 1) /\
    gVoltageHist s2
    = <[Z.to_nat 1 :=
          <[Z.to_nat (gHistCounter s1 mod VOLTAGE_HISTORY_NUM)
            := stored_value (const_world 0 0) 1 s1]> row2]>
        (gVoltageHist s1) /\
    v2 = rolling_avg (gHistCounter s2)
           (<[Z.to_nat (gHistCounter s1 mod VOLTAGE_HISTORY_NUM)
              := stored_value (const_world 0 0) 1 s1]> row2) /\
    gHistCounter s1 mod VOLTAGE_HISTORY_NUM
    <> gHistCounter startup mod VOLTAGE_HISTORY_NUM.
Proof.
  split; [solve_In|]. split; [solve_In|]. split; [exact startup_wf|].
  apply (shared_sample_counter (const_world 0 0) startup 0 1);
    [solve_In | solve_In | exact startup_wf].
Defined.

(** ** Convergence on a constant source *)

(** C8 as stated fails: channel 0 reads the constant 0 (scaled value 0)
    and every accumulator starts at zero, but each averaged read of
    channel 0 is followed by one of channel 1.  The shared counter then
    sends the writes of channel 0 to the even slots only, the odd slots
    keep the seed 1500, and the tenth averaged read of channel 0 answers
    750 and not 0. *)
Lemma constant_source_interleaved_counterexample :
  let w := const_world 0 0 in
  let cmds := concat (replicate 9 [READ_V; READ_V1]) in
  match state_after w cmds startup with
  | Some s9 =>
      reply w READ_V s9 = Some (decimal 750 ++ [STOP_BYTE]) /\
      reply w READ_V s9
      <> Some (decimal (spec_scaled (replicate 204 0)) ++ [STOP_BYTE])
  | None => False
  end.
Proof. vm_compute. split; [reflexivity | discriminate]. Qed.

Lemma serve_loop w b s :
  serve w b s = loop w (set_rx (rx s ++ [b]) s).
Proof.
  unfold serve. mstep.
  destruct (loop w (set_rx (rx s ++ [b]) s)) as [[[[] s'] ev]|]; reflexivity.
Qed.

Lemma state_after_app w l1 : forall l2 s,
  state_after w (l1 ++ l2) s
  = match state_after w l1 s with
    | Some s1 => state_after w l2 s1
    | None => None
    end.
Proof.
  unfold state_after.
  induction l1 as [|b l1 IH]; intros l2 s.
  - cbn [app session]. unfold ret. reflexivity.
  - cbn [app session]. unfold bind.
    destruct (serve w b s) as [[[[] s1] e1]|]; [|reflexivity].
    specialize (IH l2 s1).
    destruct (session w (l1 ++ l2) s1) as [[[[] s2] e2]|];
      destruct (session w l1 s1) as [[[[] s3] e3]|];
      cbn in IH |- *; try exact IH; try reflexivity.
Qed.

Lemma state_after_one w b s s' ev :
  serve w b s = Some (tt, s', ev) -> state_after w [b] s = Some s'.
Proof.
  intros H. unfold state_after. cbn [session]. unfold bind, ret.
  rewrite H. reflexivity.
Qed.

Lemma reply_one w b s s' ev :
  serve w b s = Some (tt, s', ev) -> reply w b s = Some (serial_out ev).
Proof. intros H. unfold reply. rewrite H. reflexivity. Qed.

Lemma wrap8_averaged_opcode j :
  In j channels -> wrap8 (averaged_opcode j) = averaged_opcode j.
Proof.
  intros Hj. unfold channels in Hj. simpl in Hj.
  destruct Hj as [<-|[<-|[<-|[<-|[]]]]]; reflexivity.
Qed.

Lemma stored_value_set_rx w j q s :
  stored_value w j (set_rx q s) = stored_value w j s.
Proof. unfold stored_value, set_rx. cbn [adcReads]. reflexivity. Qed.

(** An averaged-read command served in a state with nothing else
    pending. *)
Lemma serve_averaged w j b s :
  In j channels -> wrap8 b = averaged_opcode j -> wf s -> rx s = [] ->
  exists row ev,
    gVoltageHist s !! Z.to_nat j = Some row /\
    let c := gHistCounter s in
    let row' :=
      <[Z.to_nat (c mod VOLTAGE_HISTORY_NUM) := stored_value w j s]> row in
    serve w b s
    = Some (tt,
            mkState (pinCharge s) (pinDischarge s) (pinLed s)
                    (<[Z.to_nat j := row']> (gVoltageHist s))
                    (wrap32 (c + 1)) []
                    (adcReads s + Z.to_nat NB_ANALOG_RD)%nat,
            ev) /\
    serial_out ev = decimal (rolling_avg (wrap32 (c + 1)) row') ++ [STOP_BYTE].
Proof.
  intros Hj Hb Hwf Hrx.
  rewrite serve_loop, Hrx. cbn [app].
  rewrite (loop_recv w (set_rx [b] s) b [] eq_refl).
  rewrite Hb.
  assert (Hwf0 : wf (set_rx [] (set_rx [b] s))) by exact Hwf.
  destruct (loop_switch_averaged w j _ Hj Hwf0) as (row & Hrow & Hrun).
  cbv zeta in Hrun. rewrite Hrun. cbn [finish].
  rewrite !stored_value_set_rx.
  unfold set_rx in Hrow |- *.
  cbn [pinCharge pinDischarge pinLed gVoltageHist gHistCounter rx adcReads]
    in Hrow |- *.
  exists row. eexists. split; [exact Hrow|].
  split; [reflexivity|].
  rewrite !serial_out_app, serial_out_samples, serial_out_writes.
  reflexivity.
Qed.

(** Any command served in a state with nothing else pending: the history
    stays as it is, or one row gets one new entry. *)
Lemma serve_any w b s :
  wf s -> rx s = [] ->
  exists s' ev,
    serve w b s = Some (tt, s', ev) /\ wf s' /\ rx s' = [] /\
    (gVoltageHist s' = gVoltageHist s \/
     exists j row,
       In j channels /\ gVoltageHist s !! Z.to_nat j = Some row /\
       gVoltageHist s'
       = <[Z.to_nat j :=
             <[Z.to_nat (gHistCounter s mod VOLTAGE_HISTORY_NUM)
               := stored_value w j s]> row]> (gVoltageHist s)).
Proof.
  intros Hwf Hrx.
  destruct (in_dec Z.eq_dec (wrap8 b) averaged_opcodes) as [Hin|Hout].
  - assert (Hj : exists j, In j channels /\ wrap8 b = averaged_opcode j).
    { unfold averaged_opcodes in Hin. simpl in Hin.
      destruct Hin as [<-|[<-|[<-|[<-|[]]]]];
        [exists 0|exists 1|exists 2|exists 3]; (split; [solve_In|reflexivity]). }
    destruct Hj as (j & Hj & Hb).
    destruct (serve_averaged w j b s Hj Hb Hwf Hrx) as (row & ev & Hrow & Hrun & _).
    cbv zeta in Hrun. rewrite Hrun. do 2 eexists. split; [reflexivity|].
    split; [apply averaged_state_wf; assumption|].
    split; [reflexivity|].
    right. exists j, row. repeat split; assumption.
  - rewrite serve_loop, Hrx. cbn [app].
    rewrite (loop_recv w (set_rx [b] s) b [] eq_refl).
    destruct (loop_switch_frame w (wrap8 b) (set_rx [] (set_rx [b] s)) Hout)
      as (brk & s' & ev & Hrun & Hh & Hc & Hr & _).
    rewrite Hrun. cbn [finish]. do 2 eexists. split; [reflexivity|].
    split; [unfold wf; rewrite Hh, Hc; exact Hwf|].
    split; [exact Hr|]. left. exact Hh.
Qed.

(** A byte that is no averaged-read opcode, served in a state with
    nothing else pending: history and counter stay as they are. *)
Lemma serve_other w b s :
  wf s -> rx s = [] -> is_averaged (wrap8 b) = false ->
  exists s' ev,
    serve w b s = Some (tt, s', ev) /\ wf s' /\ rx s' = [] /\
    gVoltageHist s' = gVoltageHist s /\ gHistCounter s' = gHistCounter s.
Proof.
  intros Hwf Hrx Hb.
  assert (Hout : ~ In (wrap8 b) averaged_opcodes).
  { intros Hin. unfold is_averaged in Hb.
    assert (Ht : existsb (Z.eqb (wrap8 b)) averaged_opcodes = true).
    { apply existsb_exists. exists (wrap8 b). split; [exact Hin | apply Z.eqb_refl]. }
    rewrite Ht in Hb. discriminate Hb. }
  rewrite serve_loop, Hrx. cbn [app].
  rewrite (loop_recv w (set_rx [b] s) b [] eq_refl).
  destruct (loop_switch_frame w (wrap8 b) (set_rx [] (set_rx [b] s)) Hout)
    as (brk & s' & ev & Hrun & Hh & Hc & Hr & _).
  rewrite Hrun. cbn [finish]. do 2 eexists. split; [reflexivity|].
  split; [unfold wf; rewrite Hh, Hc; exact Hwf|].
  split; [exact Hr|]. split; [exact Hh | exact Hc].
Qed.

Lemma is_averaged_channel x :
  is_averaged x = true -> exists j, In j channels /\ x = averaged_opcode j.
Proof.
  intros H. unfold is_averaged in H. apply existsb_exists in H.
  destruct H as (y & Hin & Heq). apply Z.eqb_eq in Heq. subst y.
  unfold averaged_opcodes in Hin. simpl in Hin.
  destruct Hin as [<-|[<-|[<-|[<-|[]]]]];
    [exists 0|exists 1|exists 2|exists 3]; (split; [solve_In|reflexivity]).
Qed.

Lemma is_averaged_opcode j : In j channels -> is_averaged (averaged_opcode j) = true.
Proof.
  intros Hj. unfold channels in Hj. simpl in Hj.
  destruct Hj as [<-|[<-|[<-|[<-|[]]]]]; reflexivity.
Qed.

Lemma averaged_opcode_inj j1 j2 :
  In j1 channels -> In j2 channels ->
  averaged_opcode j1 = averaged_opcode j2 -> j1 = j2.
Proof.
  intros H1 H2. unfold channels in *. simpl in *.
  destruct H1 as [<-|[<-|[<-|[<-|[]]]]];
    destruct H2 as [<-|[<-|[<-|[<-|[]]]]];
    intros H; first [reflexivity | discriminate H].
Qed.

Lemma covers_spec slots :
  covers slots = true <-> (forall p, 0 <= p < 10 -> In p slots).
Proof.
  unfold covers. rewrite forallb_forall. split.
  - intros H p Hp.
    assert (Hin : In p [0; 1; 2; 3; 4; 5; 6; 7; 8; 9]) by (simpl; lia).
    specialize (H p Hin). apply existsb_exists in H.
    destruct H as (y & Hy & Heq). apply Z.eqb_eq in Heq. subst y. exact Hy.
  - intros H p Hin. apply existsb_exists. exists p.
    split; [|apply Z.eqb_refl]. apply H. simpl in Hin. lia.
Qed.

(** Slots once written stay written as the session goes on. *)
Lemma slots_written_prefix j l1 : forall c l2 p,
  In p (slots_written j c l1) -> In p (slots_written j c (l1 ++ l2)).
Proof.
  induction l1 as [|b l1 IH]; intros c l2 p H; [destruct H|].
  cbn [slots_written app] in H |- *.
  destruct (is_averaged (wrap8 b)); [|apply IH; exact H].
  apply in_app_iff in H. apply in_app_iff.
  destruct H as [H|H]; [left; exact H | right; apply IH; exact H].
Qed.

(** A row of ten slots that all hold [v]. *)
Lemma row_full (row : list Z) v :
  length row = 10%nat ->
  (forall p, 0 <= p < 10 -> row !! Z.to_nat p = Some v) ->
  row = replicate 10 v.
Proof.
  intros Hlen H.
  apply (list_eq_same_length _ _ 10); [apply length_replicate | exact Hlen |].
  intros i x y Hi Hx Hy.
  apply lookup_replicate_1 in Hy as [-> _].
  specialize (H (Z.of_nat i) ltac:(lia)). rewrite Nat2Z.id in H. congruence.
Qed.

Section ConstantSource.

Variable w : world.
Variables j R : Z.
Hypothesis Hj : In j channels.
Hypothesis HR : 0 <= R <= 1023.
Hypothesis Hadc : forall n, adc w j n = R.
Hypothesis Hzero : forall n, uninit w n = 0.

Local Abbreviation scaled := (spec_scaled (replicate 204 R)).
Local Abbreviation op := (averaged_opcode j).

Lemma samples_of_const k : samples_of w j k = replicate 204 R.
Proof.
  unfold samples_of. generalize 204%nat as n. generalize 0%nat as start.
  intros start n. revert start.
  induction n as [|n IH]; intros start; [reflexivity|].
  cbn [seq map replicate]. rewrite Hadc, IH. reflexivity.
Qed.

Lemma stored_value_const s : stored_value w j s = scaled.
Proof.
  unfold stored_value. rewrite Hzero. change (wrap32 0) with 0.
  rewrite scaled_from_zero by (intros i; rewrite Hadc; exact HR).
  rewrite samples_of_const. reflexivity.
Qed.

Lemma scaled_bound : 0 <= scaled <= HIST_MAX.
Proof. rewrite <- (stored_value_const startup). apply stored_value_bound. Qed.

Lemma channel_index_inj j2 : In j2 channels -> j2 <> j -> Z.to_nat j2 <> Z.to_nat j.
Proof.
  intros H2 Hne. unfold channels in *. simpl in *.
  destruct H2 as [<-|[<-|[<-|[<-|[]]]]];
    destruct Hj as [<-|[<-|[<-|[<-|[]]]]]; simpl; lia.
Qed.

(** The invariant of a session: row [j] holds the scaled value in every
    slot channel [j] has written so far ([done]).  When those slots and
    the ones the rest of the session writes, the closing read included,
    cover the ring, the closing read answers the scaled value. *)
Lemma covered_session pre : forall s done,
  wf s -> rx s = [] ->
  (exists row,
     gVoltageHist s !! Z.to_nat j = Some row /\
     forall p, In p done -> row !! Z.to_nat p = Some scaled) ->
  (forall p, 0 <= p < 10 ->
     In p (done ++ slots_written j (gHistCounter s) (pre ++ [op]))) ->
  exists s',
    state_after w pre s = Some s' /\
    reply w op s' = Some (decimal scaled ++ [STOP_BYTE]).
Proof.
  induction pre as [|b pre IH]; intros s done Hwf Hrx (row & Hrow & Hdone) Hcov.
  - exists s. split; [reflexivity|].
    destruct (serve_averaged w j op s Hj (wrap8_averaged_opcode j Hj) Hwf Hrx)
      as (row0 & ev & Hrow0 & Hrun & Hout).
    assert (Hr0 : row0 = row) by congruence. subst row0.
    cbv zeta in Hrun, Hout.
    rewrite (reply_one w _ _ _ _ Hrun), Hout, stored_value_const.
    destruct (wf_row s j Hwf Hj) as (row1 & Hrow1 & Hlen & _).
    assert (Hr1 : row1 = row) by congruence. subst row1.
    cbn [app slots_written] in Hcov.
    rewrite (wrap8_averaged_opcode j Hj), (is_averaged_opcode j Hj), Z.eqb_refl
      in Hcov.
    rewrite (row_full (<[Z.to_nat (gHistCounter s mod VOLTAGE_HISTORY_NUM)
                         := scaled]> row) scaled).
    + rewrite rolling_avg_replicate;
        [reflexivity | apply wrap32_range | apply scaled_bound].
    + rewrite length_insert. exact Hlen.
    + intros p Hp. specialize (Hcov p Hp).
      destruct (Z.eq_dec p (gHistCounter s mod VOLTAGE_HISTORY_NUM)) as [->|Hne].
      * apply list_lookup_insert_eq. rewrite Hlen.
        unfold VOLTAGE_HISTORY_NUM in *. lia.
      * rewrite list_lookup_insert_ne
          by (pose proof (Z.mod_pos_bound (gHistCounter s) VOLTAGE_HISTORY_NUM);
              unfold VOLTAGE_HISTORY_NUM in *; lia).
        apply Hdone. apply in_app_iff in Hcov.
        destruct Hcov as [Hd|Hn]; [exact Hd|].
        cbn [app] in Hn. destruct Hn as [Hn|[]]. congruence.
  - cbn [app slots_written] in Hcov.
    change (b :: pre) with ([b] ++ pre). rewrite state_after_app.
    destruct (is_averaged (wrap8 b)) eqn:Havg.
    + destruct (is_averaged_channel _ Havg) as (j2 & Hj2 & Hb).
      destruct (serve_averaged w j2 b s Hj2 Hb Hwf Hrx)
        as (row2 & ev & Hrow2 & Hrun & _).
      cbv zeta in Hrun.
      rewrite (state_after_one w _ _ _ _ Hrun).
      match type of Hrun with _ = Some (_, ?st, _) => set (s1 := st) in * end.
      assert (Hwf1 : wf s1) by (apply averaged_state_wf; assumption).
      destruct (Z.eq_dec j2 j) as [->|Hne].
      * assert (Hr2 : row2 = row) by congruence. subst row2.
        rewrite Hb, Z.eqb_refl in Hcov.
        destruct (wf_row s j Hwf Hj) as (row1 & Hrow1 & Hlen & _).
        assert (Hr1 : row1 = row) by congruence. subst row1.
        apply (IH s1 (done ++ [gHistCounter s mod VOLTAGE_HISTORY_NUM]) Hwf1 eq_refl).
        -- eexists. split.
           { cbn [s1 gVoltageHist]. apply list_lookup_insert_eq.
             apply lookup_lt_Some in Hrow. exact Hrow. }
           intros p Hp. apply in_app_iff in Hp. rewrite stored_value_const.
           destruct (Z.eq_dec p (gHistCounter s mod VOLTAGE_HISTORY_NUM))
             as [->|Hnp].
           ++ apply list_lookup_insert_eq. rewrite Hlen.
              pose proof (Z.mod_pos_bound (gHistCounter s) VOLTAGE_HISTORY_NUM).
              unfold VOLTAGE_HISTORY_NUM in *. lia.
           ++ destruct Hp as [Hp|[Hp|[]]]; [|congruence].
              destruct (Nat.eq_dec
                          (Z.to_nat (gHistCounter s mod VOLTAGE_HISTORY_NUM))
                          (Z.to_nat p)) as [He|Hn].
              ** rewrite <- He. apply list_lookup_insert_eq. rewrite Hlen.
                 pose proof (Z.mod_pos_bound (gHistCounter s) VOLTAGE_HISTORY_NUM).
                 unfold VOLTAGE_HISTORY_NUM in *. lia.
              ** rewrite list_lookup_insert_ne by exact Hn. apply Hdone. exact Hp.
        -- intros p Hp. specialize (Hcov p Hp).
           rewrite <- app_assoc. exact Hcov.
      * assert (Hneq : (wrap8 b =? averaged_opcode j) = false).
        { apply Z.eqb_neq. rewrite Hb. intros He. apply Hne.
          apply averaged_opcode_inj; assumption. }
        rewrite Hneq in Hcov. cbn [app] in Hcov.
        apply (IH s1 done Hwf1 eq_refl).
        -- exists row. split; [|exact Hdone].
           cbn [s1 gVoltageHist].
           rewrite list_lookup_insert_ne by (apply channel_index_inj; assumption).
           exact Hrow.
        -- exact Hcov.
    + destruct (serve_other w b s Hwf Hrx Havg)
        as (s1 & ev & Hrun & Hwf1 & Hrx1 & Hh & Hc).
      rewrite (state_after_one w _ _ _ _ Hrun).
      apply (IH s1 done Hwf1 Hrx1).
      * exists row. rewrite Hh. split; [exact Hrow | exact Hdone].
      * rewrite Hc. exact Hcov.
Qed.

End ConstantSource.

Lemma fold_add_replicate n R : forall a,
  fold_left Z.add (replicate n R) a = a + Z.of_nat n * R.
Proof.
  induction n as [|n IH]; intros a.
  - cbn. ring.
  - cbn [replicate fold_left]. rewrite IH, Nat2Z.inj_succ. ring.
Qed.

(** The pipeline on 204 equal samples: the mean is the sample. *)
Lemma spec_scaled_const R : spec_scaled (replicate 204 R) = R * 2410 / 1023.
Proof.
  unfold spec_scaled. rewrite fold_add_replicate.
  change (Z.of_nat 204) with 204. rewrite Z.add_0_l, (Z.mul_comm 204 R).
  rewrite Z.div_mul by discriminate. reflexivity.
Qed.

(** Averaged reads of one channel, with any bytes between them except
    averaged reads of other channels, write consecutive slots as long as
    the counter does not wrap; ten of them write all ten. *)
Lemma own_reads_slots j cmds : forall c (n : nat),
  In j channels -> 0 <= c -> c + Z.of_nat n <= UL_MOD ->
  Forall (fun b => is_averaged (wrap8 b) = true -> wrap8 b = averaged_opcode j) cmds ->
  (n <= own_reads j cmds)%nat ->
  forall i, 0 <= i < Z.of_nat n ->
    In ((c + i) mod VOLTAGE_HISTORY_NUM) (slots_written j c cmds).
Proof.
  induction cmds as [|b cmds IH]; intros c n Hj Hc Hlt Hown Hn i Hi.
  - cbn [own_reads] in Hn. lia.
  - inversion Hown as [|? ? Hb Hrest]; subst.
    cbn [slots_written own_reads] in Hn |- *.
    destruct (is_averaged (wrap8 b)) eqn:Havg.
    + rewrite (Hb eq_refl) in Hn |- *. rewrite Z.eqb_refl in Hn |- *.
      cbn [app]. destruct (Z.eq_dec i 0) as [->|Hi0].
      * left. f_equal. ring.
      * right. rewrite wrap32_small by lia.
        replace (c + i) with (c + 1 + (i - 1)) by ring.
        apply (IH (c + 1) (Nat.pred n) Hj); [lia | lia | exact Hrest | lia | lia].
    + assert (Hne : (wrap8 b =? averaged_opcode j) = false).
      { apply Z.eqb_neq. intros He. rewrite He, (is_averaged_opcode j Hj) in Havg.
        discriminate Havg. }
      rewrite Hne in Hn. apply (IH c n Hj Hc Hlt Hrest Hn i Hi).
Qed.

Lemma ten_own_reads_cover j c cmds :
  In j channels -> 0 <= c -> c + 10 <= UL_MOD ->
  Forall (fun b => is_averaged (wrap8 b) = true -> wrap8 b = averaged_opcode j) cmds ->
  (10 <= own_reads j cmds)%nat ->
  covers (slots_written j c cmds) = true.
Proof.
  intros Hj Hc Hlt Hown Hn. apply covers_spec. intros p Hp.
  pose proof (own_reads_slots j cmds c 10 Hj Hc Hlt Hown Hn
                ((p - c) mod VOLTAGE_HISTORY_NUM)) as H.
  unfold VOLTAGE_HISTORY_NUM in H.
  rewrite Zplus_mod_idemp_r in H.
  replace (c + (p - c)) with p in H by ring.
  rewrite (Z.mod_small p 10) in H by lia.
  apply H. pose proof (Z.mod_pos_bound (p - c) 10). lia.
Qed.

Lemma own_reads_app j l1 l2 :
  own_reads j (l1 ++ l2) = (own_reads j l1 + own_reads j l2)%nat.
Proof.
  induction l1 as [|b l1 IH]; [reflexivity|].
  cbn [app own_reads]. destruct (wrap8 b =? averaged_opcode j); rewrite IH; reflexivity.
Qed.

(** In particular: nine averaged reads of channel [j], with any bytes
    before, between and after them except averaged reads of other
    channels, and a counter that does not wrap within ten reads; the next
    averaged read of channel [j], the tenth, answers the scaled value. *)
Lemma tenth_own_read_converges w j R s pre :
  In j channels ->
  0 <= R <= 1023 ->
  (forall n, adc w j n = R) ->
  (forall n, uninit w n = 0) ->
  wf s -> rx s = [] -> gHistCounter s + 10 <= UL_MOD ->
  Forall (fun b => is_averaged (wrap8 b) = true -> wrap8 b = averaged_opcode j) pre ->
  (9 <= own_reads j pre)%nat ->
  exists s',
    state_after w pre s = Some s' /\
    reply w (averaged_opcode j) s'
    = Some (decimal (spec_scaled (replicate 204 R)) ++ [STOP_BYTE]).
Proof.
  intros Hj HR Hadc Hzero Hwf Hrx Hlt Hown Hn.
  destruct (wf_row s j Hwf Hj) as (row & Hrow & _).
  assert (Hc : 0 <= gHistCounter s) by (destruct Hwf as (_ & _ & ?); lia).
  apply (covered_session w j R Hj HR Hadc Hzero pre s [] Hwf Hrx).
  - exists row. split; [exact Hrow|]. intros p [].
  - cbn [app]. apply covers_spec. apply ten_own_reads_cover; try assumption.
    + apply Forall_app. split; [exact Hown|].
      constructor; [|constructor]. intros _. apply wrap8_averaged_opcode. exact Hj.
    + rewrite own_reads_app. cbn [own_reads].
      rewrite (wrap8_averaged_opcode j Hj), Z.eqb_refl. lia.
Qed.

(** C8, amended.  Channel [j] reads the constant [R] (in the converter's
    range) and every accumulator starts at zero.  A session of command
    bytes [pre], of any kind and for any channel, is served from a
    well-shaped state with nothing pending, and then channel [j] is read.
    If the averaged reads of channel [j] in the session, that closing read
    included, have written every one of the ten ring slots (an averaged
    read writes its row at the shared counter modulo 10, and every
    averaged read of any channel advances the counter), the closing read
    answers exactly the scaled value of [R]; and so does every averaged
    read of channel [j] after any further bytes [more]. *)
Theorem constant_source_convergence w j R s pre more :
  In j channels ->
  0 <= R <= 1023 ->
  (forall n, adc w j n = R) ->
  (forall n, uninit w n = 0) ->
  wf s -> rx s = [] ->
  covers (slots_written j (gHistCounter s) (pre ++ [averaged_opcode j])) = true ->
  (exists s',
     state_after w pre s = Some s' /\
     reply w (averaged_opcode j) s'
     = Some (decimal (spec_scaled (replicate 204 R)) ++ [STOP_BYTE])) /\
  (exists s'',
     state_after w (pre ++ averaged_opcode j :: more) s = Some s'' /\
     reply w (averaged_opcode j) s''
     = Some (decimal (spec_scaled (replicate 204 R)) ++ [STOP_BYTE])).
Proof.
  intros Hj HR Hadc Hzero Hwf Hrx Hcov.
  destruct (wf_row s j Hwf Hj) as (row & Hrow & _).
  assert (Hdone : exists row0,
             gVoltageHist s !! Z.to_nat j = Some row0 /\
             forall p, In p [] -> row0 !! Z.to_nat p = Some (spec_scaled (replicate 204 R))).
  { exists row. split; [exact Hrow|]. intros p []. }
  rewrite covers_spec in Hcov.
  split.
  - apply (covered_session w j R Hj HR Hadc Hzero pre s [] Hwf Hrx Hdone).
    exact Hcov.
  - apply (covered_session w j R Hj HR Hadc Hzero
             (pre ++ averaged_opcode j :: more) s [] Hwf Hrx Hdone).
    intros p Hp. cbn [app].
    replace ((pre ++ averaged_opcode j :: more) ++ [averaged_opcode j])
      with ((pre ++ [averaged_opcode j]) ++ (more ++ [averaged_opcode j]))
      by (rewrite <- !app_assoc; reflexivity).
    apply slots_written_prefix. exact (Hcov p Hp).
Qed.

Lemma constant_source_convergence_witness :
  In 0 channels /\
  0 <= 512 <= 1023 /\
  (forall n, adc (const_world 512 0) 0 n = 512) /\
  (forall n, uninit (const_world 512 0) n = 0) /\
  wf startup /\ rx startup = [] /\
  covers (slots_written 0 (gHistCounter startup)
            (concat (replicate 9 [READ_V; LED_TOGGLE; READ_V1; READ_V1; 0x99])
             ++ [averaged_opcode 0])) = true /\
  (exists s',
     state_after (const_world 512 0)
       (concat (replicate 9 [READ_V; LED_TOGGLE; READ_V1; READ_V1; 0x99])) startup
     = Some s' /\
     reply (const_world 512 0) (averaged_opcode 0) s'
     = Some (decimal (spec_scaled (replicate 204 512)) ++ [STOP_BYTE])) /\
  (exists s'',
     state_after (const_world 512 0)
       (concat (replicate 9 [READ_V; LED_TOGGLE; READ_V1; READ_V1; 0x99])
        ++ averaged_opcode 0 :: [READ_V3; MODE_CHARGE; READ_V2]) startup
     = Some s'' /\
     reply (const_world 512 0) (averaged_opcode 0) s''
     = Some (decimal (spec_scaled (replicate 204 512)) ++ [STOP_BYTE])).
Proof.
  assert (H1 : In 0 channels) by solve_In.
  assert (H2 : 0 <= 512 <= 1023) by lia.
  assert (H3 : forall n, adc (const_world 512 0) 0 n = 512) by (intros n; reflexivity).
  assert (H4 : forall n, uninit (const_world 512 0) n = 0) by (intros n; reflexivity).
  assert (H5 : rx startup = []) by reflexivity.
  assert (H6 : covers (slots_written 0 (gHistCounter startup)
                 (concat (replicate 9 [READ_V; LED_TOGGLE; READ_V1; READ_V1; 0x99])
                  ++ [averaged_opcode 0])) = true) by (vm_compute; reflexivity).
  repeat (split; [assumption || exact startup_wf|]).
  apply (constant_source_convergence (const_world 512 0) 0 512 startup
           (concat (replicate 9 [READ_V; LED_TOGGLE; READ_V1; READ_V1; 0x99]))
           [READ_V3; MODE_CHARGE; READ_V2] H1 H2 H3 H4 startup_wf H5 H6).
Defined.

(** * Further properties *)

(** ** Startup *)

(** X1.  [setup] resets the board whatever it held before: charge off
    (pin high), discharge off, indicator on, every slot of the history at
    the seed 1500 and the counter at zero; the receive buffer and the
    converter are left alone and only the three pin writes are logged. *)
Theorem setup_resets s :
  shape s ->
  setup s
  = Some (tt,
          mkState true false true
                  (replicate 4 (replicate 10 CHARGE_THRESHOLD)) 0
                  (rx s) (adcReads s),
          [EvDigitalWrite PIN_CHARGE true; EvDigitalWrite PIN_DISCHARGE false;
           EvDigitalWrite PIN_LED true]).
Proof.
  intros [Hlen Hrows]. destruct s as [pc pd pl h c q n].
  cbn [gVoltageHist] in Hlen, Hrows.
  destruct h as [|r0 [|r1 [|r2 [|r3 [|]]]]]; try discriminate Hlen.
  inversion Hrows as [|? ? H0 Hrows1]; subst.
  inversion Hrows1 as [|? ? H1 Hrows2]; subst.
  inversion Hrows2 as [|? ? H2 Hrows3]; subst.
  inversion Hrows3 as [|? ? H3 _]; subst.
  clear Hrows Hrows1 Hrows2 Hrows3 Hlen.
  repeat (let x := fresh "x" in destruct r0 as [|x r0]; try discriminate H0).
  repeat (let x := fresh "x" in destruct r1 as [|x r1]; try discriminate H1).
  repeat (let x := fresh "x" in destruct r2 as [|x r2]; try discriminate H2).
  repeat (let x := fresh "x" in destruct r3 as [|x r3]; try discriminate H3).
  reflexivity.
Qed.

Lemma setup_resets_witness :
  shape power_on /\
  setup power_on
  = Some (tt,
          mkState true false true
                  (replicate 4 (replicate 10 CHARGE_THRESHOLD)) 0
                  (rx power_on) (adcReads power_on),
          [EvDigitalWrite PIN_CHARGE true; EvDigitalWrite PIN_DISCHARGE false;
           EvDigitalWrite PIN_LED true]).
Proof.
  assert (H : shape power_on).
  { split; [reflexivity|]. repeat constructor. }
  split; [exact H|]. apply (setup_resets power_on H).
Defined.

(** ** Sessions *)

(** X2.  From a well-shaped state with nothing pending, every sequence
    of command bytes, recognised or not, under every analog source, is
    served to the end with every access to the history inside the array
    and without control ever falling through the [switch] of [getAnalog];
    the state stays well-shaped, every byte is consumed, and only inputs 0
    to 3 are ever converted.  The read of the local [sum], which
    [getVoltage] leaves uninitialised, is outside this statement: the
    model gives that local an arbitrary content (see C3). *)
Theorem session_stays_in_bounds w cmds : forall s,
  wf s -> rx s = [] ->
  exists s' ev,
    session w cmds s = Some (tt, s', ev) /\
    wf s' /\ rx s' = [] /\ Forall analog_ok ev.
Proof.
  induction cmds as [|b cmds IH]; intros s Hwf Hrx.
  - exists s, []. repeat split; try apply Hwf; [exact Hrx | constructor].
  - cbn [session]. unfold bind. rewrite serve_loop, Hrx. cbn [app].
    destruct (loop_total w (set_rx [b] s) Hwf) as (s1 & e1 & Hrun & Hwf1 & Hok1 & Hrx1).
    rewrite Hrun. cbn [rx set_rx tail] in Hrx1.
    destruct (IH s1 Hwf1 Hrx1) as (s' & e2 & Hrun' & Hwf' & Hrx' & Hok2).
    rewrite Hrun'. exists s', (e1 ++ e2).
    split; [reflexivity|]. split; [exact Hwf'|]. split; [exact Hrx'|].
    apply Forall_app. split; assumption.
Qed.

Lemma session_stays_in_bounds_witness :
  wf startup /\ rx startup = [] /\
  exists s' ev,
    session (const_world 700 13) [READ_V3; 0x99; LED_TOGGLE; READ_A1; 0x41] startup
    = Some (tt, s', ev) /\
    wf s' /\ rx s' = [] /\ Forall analog_ok ev.
Proof.
  split; [exact startup_wf|]. split; [reflexivity|].
  apply (session_stays_in_bounds (const_world 700 13)
           [READ_V3; 0x99; LED_TOGGLE; READ_A1; 0x41] startup startup_wf eq_refl).
Defined.

(** ** Framing *)

Lemma decimal_digits v : Forall (fun d => 48 <= d <= 57) (decimal v).
Proof. apply printNumber_digits. constructor. Qed.

Lemma digits_below_stop ds :
  Forall (fun d => 48 <= d <= 57) ds -> Forall (fun y => 0 <= y < STOP_BYTE) ds.
Proof.
  intros H. eapply Forall_impl; [exact H|].
  intros d Hd. cbn beta in Hd |- *. unfold STOP_BYTE. lia.
Qed.

Lemma loop_switch_payload w x s :
  wf s -> In x opcode_table ->
  exists s' ev,
    loop_switch w x s = Some (true, s', ev) /\
    Forall (fun y => 0 <= y < STOP_BYTE) (serial_out ev).
Proof.
  intros Hwf Hin.
  destruct (opcode_cases x Hin) as [(j & Hj & ->)|[(j & Hj & ->)|[->|Hp]]].
  - rewrite (loop_switch_raw w j s Hj). do 2 eexists. split; [reflexivity|].
    cbn [serial_out]. rewrite serial_out_writes.
    apply digits_below_stop, decimal_digits.
  - destruct (loop_switch_averaged w j s Hj Hwf) as (row & _ & Hrun).
    cbv zeta in Hrun. rewrite Hrun. do 2 eexists. split; [reflexivity|].
    rewrite serial_out_app, serial_out_samples, serial_out_writes. cbn [app].
    apply digits_below_stop, decimal_digits.
  - rewrite loop_switch_toggle. do 2 eexists. split; [reflexivity|].
    cbn [serial_out]. constructor; [|constructor].
    destruct (negb (pinLed s)); vm_compute; split; congruence.
  - destruct (loop_switch_plain w x s Hp) as (s' & ev & Hrun & Hout & _).
    exists s', ev. split; [exact Hrun|]. rewrite Hout. constructor.
Qed.

(** X3.  The terminator cannot be mistaken: the response to a
    recognised opcode is a payload of bytes that are all below 0xFF
    (decimal digits, a 0 or 1, or nothing) followed by one 0xFF, so a host
    that reads up to the first 0xFF has read the whole response and only
    it. *)
Theorem response_framing w s b q :
  wf s ->
  rx s = b :: q ->
  In (wrap8 b) opcode_table ->
  exists s' ev payload,
    loop w s = Some (tt, s', ev) /\
    serial_out ev = payload ++ [STOP_BYTE] /\
    Forall (fun y => 0 <= y < STOP_BYTE) payload.
Proof.
  intros Hwf Hrx Hin. rewrite (loop_recv w s b q Hrx).
  assert (Hwf0 : wf (set_rx q s)) by exact Hwf.
  destruct (loop_switch_payload w (wrap8 b) (set_rx q s) Hwf0 Hin)
    as (s' & ev & Hrun & Hpay).
  rewrite Hrun. cbn [finish].
  exists s', (ev ++ [EvSerialWrite STOP_BYTE]), (serial_out ev).
  split; [reflexivity|]. split; [|exact Hpay].
  rewrite serial_out_app. reflexivity.
Qed.

Lemma response_framing_witness :
  wf (set_rx [READ_V2] startup) /\
  rx (set_rx [READ_V2] startup) = [READ_V2] /\
  In (wrap8 READ_V2) opcode_table /\
  exists s' ev payload,
    loop (const_world 1023 0) (set_rx [READ_V2] startup) = Some (tt, s', ev) /\
    serial_out ev = payload ++ [STOP_BYTE] /\
    Forall (fun y => 0 <= y < STOP_BYTE) payload.
Proof.
  assert (Hin : In (wrap8 READ_V2) opcode_table) by solve_In.
  split; [exact startup_wf|]. split; [reflexivity|]. split; [exact Hin|].
  apply (response_framing (const_world 1023 0) (set_rx [READ_V2] startup)
           READ_V2 [] startup_wf eq_refl Hin).
Defined.

(** ** Decimal replies *)

Lemma printNumber_parse fuel : forall n acc,
  0 <= n < 10 ^ Z.of_nat (S fuel) ->
  fold_left (fun a d => 10 * a + (d - 48)) (printNumber fuel n acc) 0
  = fold_left (fun a d => 10 * a + (d - 48)) acc n.
Proof.
  induction fuel as [|fuel IH]; intros n acc Hn.
  - change (10 ^ Z.of_nat 1) with 10 in Hn.
    cbn [printNumber fold_left]. rewrite Z.mod_small by lia.
    f_equal. ring.
  - cbn [printNumber].
    pose proof (Z.div_mod n 10 ltac:(lia)) as Hdm.
    pose proof (Z.mod_pos_bound n 10 ltac:(lia)) as Hmb.
    destruct (Z.eqb_spec (n / 10) 0) as [Hz|Hnz].
    + cbn [fold_left]. f_equal. lia.
    + rewrite IH.
      * cbn [fold_left]. f_equal. lia.
      * rewrite Nat2Z.inj_succ, Z.pow_succ_r in Hn by lia.
        split; [apply Z.div_pos; lia|].
        apply Z.div_lt_upper_bound; lia.
Qed.

Lemma printNumber_head fuel : forall n acc,
  0 < n ->
  exists d ds, printNumber fuel n acc = d :: ds /\ (d <> 48 \/ 10 ^ Z.of_nat (S fuel) <= n).
Proof.
  induction fuel as [|fuel IH]; intros n acc Hn.
  - cbn [printNumber]. do 2 eexists. split; [reflexivity|].
    change (10 ^ Z.of_nat 1) with 10.
    destruct (Z_lt_le_dec n 10) as [Hlt|Hge]; [left|right; exact Hge].
    rewrite Z.mod_small by lia. lia.
  - cbn [printNumber].
    pose proof (Z.div_mod n 10 ltac:(lia)) as Hdm.
    pose proof (Z.mod_pos_bound n 10 ltac:(lia)) as Hmb.
    destruct (Z.eqb_spec (n / 10) 0) as [Hz|Hnz].
    + do 2 eexists. split; [reflexivity|]. left. lia.
    + assert (Hq : 0 < n / 10).
      { assert (0 <= n / 10) by (apply Z.div_pos; lia). lia. }
      destruct (IH (n / 10) ((48 + n mod 10) :: acc) Hq) as (d & ds & Heq & Hd).
      exists d, ds. split; [exact Heq|].
      destruct Hd as [Hd|Hd]; [left; exact Hd|right].
      rewrite (Nat2Z.inj_succ (S fuel)), Z.pow_succ_r by lia. lia.
Qed.

Lemma decimal_parse v : 0 <= v < UL_MOD -> parse_decimal (decimal v) = v.
Proof.
  intros Hv. rewrite UL_MOD_value in Hv.
  unfold parse_decimal, decimal. rewrite printNumber_parse; [reflexivity|].
  change (10 ^ Z.of_nat 10) with 10000000000. lia.
Qed.

(** X4.  [sendUint] always reports success, changes nothing, and writes
    the decimal text of its argument: for every 32-bit value the digits
    sent are ASCII '0' to '9', at most ten of them, read back as the value
    itself, and start with '0' only when the value is 0. *)
Theorem sendUint_round_trip v s :
  0 <= v < UL_MOD ->
  exists ds,
    sendUint v s = Some (true, s, map EvSerialWrite ds) /\
    Forall (fun d => 48 <= d <= 57) ds /\
    parse_decimal ds = v /\
    (0 < length ds <= 10)%nat /\
    (v = 0 \/ hd 0 ds <> 48).
Proof.
  intros Hv. exists (decimal v). rewrite UL_MOD_value in Hv.
  split; [apply sendUint_run|]. split; [apply decimal_digits|].
  split; [|split].
  - unfold parse_decimal, decimal. rewrite printNumber_parse; [reflexivity|].
    change (10 ^ Z.of_nat 10) with 10000000000. lia.
  - unfold decimal.
    assert (Hlen : forall fuel n acc,
               (length acc < length (printNumber fuel n acc)
                <= length acc + S fuel)%nat).
    { induction fuel as [|fuel IH]; intros n acc; cbn [printNumber].
      - cbn [length]. lia.
      - destruct (n / 10 =? 0); [cbn [length]; lia|].
        specialize (IH (n / 10) ((48 + n mod 10) :: acc)).
        cbn [length] in IH. lia. }
    specialize (Hlen 9%nat v []). cbn [length] in Hlen. lia.
  - destruct (Z.eq_dec v 0) as [Hz|Hnz]; [left; exact Hz|right].
    destruct (printNumber_head 9 v [] ltac:(lia)) as (d & ds & Heq & Hd).
    unfold decimal. rewrite Heq. cbn [hd].
    destruct Hd as [Hd|Hd]; [exact Hd|].
    change (10 ^ Z.of_nat 10) with 10000000000 in Hd. lia.
Qed.

Lemma sendUint_round_trip_witness :
  0 <= 4294967295 < UL_MOD /\
  exists ds,
    sendUint 4294967295 startup = Some (true, startup, map EvSerialWrite ds) /\
    Forall (fun d => 48 <= d <= 57) ds /\
    parse_decimal ds = 4294967295 /\
    (0 < length ds <= 10)%nat /\
    (4294967295 = 0 \/ hd 0 ds <> 48).
Proof.
  assert (H : 0 <= 4294967295 < UL_MOD) by (vm_compute; split; congruence).
  split; [exact H|]. apply (sendUint_round_trip 4294967295 startup H).
Defined.

(** ** Raw reads *)

Lemma wrap8_raw_opcode j : In j channels -> wrap8 (raw_opcode j) = raw_opcode j.
Proof.
  intros Hj. unfold channels in Hj. simpl in Hj.
  destruct Hj as [<-|[<-|[<-|[<-|[]]]]]; reflexivity.
Qed.

(** X5.  A raw read of channel [j], served with nothing else pending,
    makes exactly one conversion, of input [j]; the reply is the decimal
    text of that sample, which reads back as the sample, followed by the
    terminator; and nothing of the state changes but the count of
    conversions. *)
Theorem raw_read_reply w j s :
  In j channels ->
  rx s = [] ->
  0 <= adc w j (adcReads s) < UL_MOD ->
  exists ds,
    serve w (raw_opcode j) s
    = Some (tt, set_adcReads (S (adcReads s)) s,
            EvAnalogRead j (adc w j (adcReads s))
            :: map EvSerialWrite ds ++ [EvSerialWrite STOP_BYTE]) /\
    parse_decimal ds = adc w j (adcReads s).
Proof.
  intros Hj Hrx Hv.
  exists (decimal (adc w j (adcReads s))).
  split; [|apply decimal_parse; exact Hv].
  rewrite serve_loop, Hrx. cbn [app].
  rewrite (loop_recv w (set_rx [raw_opcode j] s) (raw_opcode j) [] eq_refl).
  rewrite (wrap8_raw_opcode j Hj), (loop_switch_raw w j _ Hj).
  cbn [finish adcReads set_rx]. rewrite (wrap32_small _ Hv).
  destruct s as [pc pd pl h c r n]. cbn [rx] in Hrx. subst r. reflexivity.
Qed.

Lemma raw_read_reply_witness :
  In 3 channels /\ rx startup = [] /\
  0 <= adc (const_world 1023 0) 3 (adcReads startup) < UL_MOD /\
  exists ds,
    serve (const_world 1023 0) (raw_opcode 3) startup
    = Some (tt, set_adcReads (S (adcReads startup)) startup,
            EvAnalogRead 3 (adc (const_world 1023 0) 3 (adcReads startup))
            :: map EvSerialWrite ds ++ [EvSerialWrite STOP_BYTE]) /\
    parse_decimal ds = adc (const_world 1023 0) 3 (adcReads startup).
Proof.
  assert (H1 : In 3 channels) by solve_In.
  assert (H3 : 0 <= adc (const_world 1023 0) 3 (adcReads startup) < UL_MOD)
    by (vm_compute; split; congruence).
  split; [exact H1|]. split; [reflexivity|]. split; [exact H3|].
  apply (raw_read_reply (const_world 1023 0) 3 startup H1 eq_refl H3).
Defined.

(** ** What each opcode leaves alone *)

Lemma total_delay_writes bs : total_delay (map EvSerialWrite bs) = 0.
Proof. induction bs as [|b bs IH]; [reflexivity | exact IH]. Qed.

Lemma conversions_writes bs : conversions (map EvSerialWrite bs) = [].
Proof. induction bs as [|b bs IH]; [reflexivity | exact IH]. Qed.

Lemma total_delay_app e1 e2 : total_delay (e1 ++ e2) = total_delay e1 + total_delay e2.
Proof.
  induction e1 as [|e e1 IH]; [reflexivity|].
  destruct e; cbn [total_delay app]; rewrite IH; ring.
Qed.

Lemma conversions_app e1 e2 : conversions (e1 ++ e2) = conversions e1 ++ conversions e2.
Proof.
  induction e1 as [|e e1 IH]; [reflexivity|].
  destruct e; cbn [conversions app]; rewrite IH; reflexivity.
Qed.



Ltac absurd_opcode Hn := solve [exfalso; apply Hn; solve_In].

(** What the [switch] does to the latches, the receive buffer and the
    converter, opcode class by opcode class. *)
Lemma loop_switch_survey w x s :
  wf s ->
  exists brk s' ev,
    loop_switch w x s = Some (brk, s', ev) /\
    rx s' = rx s /\
    (~ In x line_opcodes ->
     pinCharge s' = pinCharge s /\ pinDischarge s' = pinDischarge s) /\
    (~ In x led_opcodes -> pinLed s' = pinLed s) /\
    (~ In x line_on_opcodes -> exclusive s -> exclusive s') /\
    (~ In x averaged_opcodes ->
     total_delay ev = 0 /\ (length (conversions ev) <= 1)%nat /\
     (adcReads s' <= S (adcReads s))%nat).
Proof.
  intros Hwf.
  destruct (in_dec Z.eq_dec x opcode_table) as [Hin|Hout].
  - destruct (opcode_cases x Hin) as [(j & Hj & ->)|[(j & Hj & ->)|[->|Hp]]].
    + rewrite (loop_switch_raw w j s Hj). do 3 eexists.
      split; [reflexivity|]. split; [reflexivity|].
      split; [intros _; split; reflexivity|]. split; [intros _; reflexivity|].
      split; [intros _ Hex; exact Hex|]. intros _.
      cbn [total_delay conversions length adcReads set_adcReads].
      rewrite total_delay_writes, conversions_writes. cbn [length]. lia.
    + destruct (loop_switch_averaged w j s Hj Hwf) as (row & _ & Hrun).
      cbv zeta in Hrun. rewrite Hrun. do 3 eexists.
      split; [reflexivity|]. split; [reflexivity|].
      split; [intros _; split; reflexivity|]. split; [intros _; reflexivity|].
      split; [intros _ Hex; exact Hex|]. intros Hn. exfalso. apply Hn.
      apply averaged_opcode_In. exact Hj.
    + rewrite loop_switch_toggle. do 3 eexists.
      split; [reflexivity|]. split; [reflexivity|].
      split; [intros _; split; reflexivity|].
      split; [intros Hn; absurd_opcode Hn|].
      split; [intros _ Hex; exact Hex|]. intros _.
      cbn. lia.
    + unfold plain_opcodes in Hp. simpl in Hp.
      repeat (destruct Hp as [<-|Hp];
        [do 3 eexists; split; [reflexivity|]; split; [reflexivity|];
         split; [intros Hn; first [absurd_opcode Hn | split; reflexivity]|];
         split; [intros Hn; first [absurd_opcode Hn | reflexivity]|];
         split; [intros Hn Hex;
                 first [absurd_opcode Hn
                       | revert Hex; unfold exclusive, charge_on, discharge_on;
                         cbn; destruct (pinCharge s), (pinDischarge s);
                         cbn; congruence]|];
         intros _; cbn; lia|]).
      destruct Hp.
  - rewrite (loop_switch_unknown w x s Hout). do 3 eexists.
    split; [reflexivity|]. split; [reflexivity|].
    split; [intros _; split; reflexivity|]. split; [intros _; reflexivity|].
    split; [intros _ Hex; exact Hex|]. intros _. cbn. lia.
Qed.

(** One cycle of [loop] on a received byte, surveyed the same way. *)
Lemma loop_survey w s b q :
  wf s -> rx s = b :: q ->
  exists s' ev,
    loop w s = Some (tt, s', ev) /\
    rx s' = q /\
    (~ In (wrap8 b) line_opcodes ->
     pinCharge s' = pinCharge s /\ pinDischarge s' = pinDischarge s) /\
    (~ In (wrap8 b) led_opcodes -> pinLed s' = pinLed s) /\
    (~ In (wrap8 b) line_on_opcodes -> exclusive s -> exclusive s') /\
    (~ In (wrap8 b) averaged_opcodes ->
     total_delay ev = 0 /\ (length (conversions ev) <= 1)%nat /\
     (adcReads s' <= S (adcReads s))%nat).
Proof.
  intros Hwf Hrx. rewrite (loop_recv w s b q Hrx).
  assert (Hwf0 : wf (set_rx q s)) by exact Hwf.
  destruct (loop_switch_survey w (wrap8 b) (set_rx q s) Hwf0)
    as (brk & s' & ev & Hrun & Hr & Hlines & Hled & Hex & Hcost).
  rewrite Hrun. cbn [finish]. do 2 eexists. split; [reflexivity|].
  split; [exact Hr|]. split; [exact Hlines|]. split; [exact Hled|].
  split; [exact Hex|]. intros Hn. destruct (Hcost Hn) as (Hd & Hc & Ha).
  destruct brk; [|split; [exact Hd|split; [exact Hc|exact Ha]]].
  rewrite total_delay_app, conversions_app, Hd.
  cbn [total_delay conversions]. rewrite app_nil_r.
  split; [reflexivity|]. split; [exact Hc | exact Ha].
Qed.

(** X6.  The indicator and the power lines are independent: a cycle of
    [loop] changes the charge or discharge latch only for the seven pin
    and mode opcodes, and the indicator latch only for LED_0, LED_1 and
    LED_TOGGLE.  Reads, ping and unknown bytes change no latch. *)
Theorem latches_frame w s b q :
  wf s ->
  rx s = b :: q ->
  exists s' ev,
    loop w s = Some (tt, s', ev) /\
    (~ In (wrap8 b) line_opcodes ->
     pinCharge s' = pinCharge s /\ pinDischarge s' = pinDischarge s) /\
    (~ In (wrap8 b) led_opcodes -> pinLed s' = pinLed s).
Proof.
  intros Hwf Hrx.
  destruct (loop_survey w s b q Hwf Hrx) as (s' & ev & Hrun & _ & Hl & Hd & _).
  exists s', ev. split; [exact Hrun|]. split; [exact Hl | exact Hd].
Qed.

Lemma latches_frame_witness :
  wf (set_rx [READ_V1] startup) /\
  rx (set_rx [READ_V1] startup) = [READ_V1] /\
  ~ In (wrap8 READ_V1) line_opcodes /\
  ~ In (wrap8 READ_V1) led_opcodes /\
  exists s' ev,
    loop (const_world 300 0) (set_rx [READ_V1] startup) = Some (tt, s', ev) /\
    (~ In (wrap8 READ_V1) line_opcodes ->
     pinCharge s' = pinCharge (set_rx [READ_V1] startup) /\
     pinDischarge s' = pinDischarge (set_rx [READ_V1] startup)) /\
    (~ In (wrap8 READ_V1) led_opcodes ->
     pinLed s' = pinLed (set_rx [READ_V1] startup)).
Proof.
  assert (H1 : ~ In (wrap8 READ_V1) line_opcodes).
  { simpl. intros H. repeat (destruct H as [H|H]; [discriminate H|]). exact H. }
  assert (H2 : ~ In (wrap8 READ_V1) led_opcodes).
  { simpl. intros H. repeat (destruct H as [H|H]; [discriminate H|]). exact H. }
  split; [exact startup_wf|]. split; [reflexivity|].
  split; [exact H1|]. split; [exact H2|].
  apply (latches_frame (const_world 300 0) (set_rx [READ_V1] startup)
           READ_V1 [] startup_wf eq_refl).
Defined.

(** ** Mutual exclusion of the power lines *)

(** X7.  Charge and discharge stay mutually exclusive as long as the
    host keeps to reads, LED opcodes, ping, the two "off" opcodes and the
    three mode opcodes: from a state where the lines are not both on, no
    sequence of bytes that avoids PIN_DISCHARGE_1 and PIN_CHARGE_1 ends
    with both on. *)
Theorem exclusive_kept w cmds : forall s,
  wf s -> rx s = [] -> exclusive s ->
  Forall (fun b => ~ In (wrap8 b) line_on_opcodes) cmds ->
  exists s', state_after w cmds s = Some s' /\ exclusive s'.
Proof.
  induction cmds as [|b cmds IH]; intros s Hwf Hrx Hex Hcmds.
  - exists s. split; [reflexivity | exact Hex].
  - inversion Hcmds as [|? ? Hb Hrest]; subst.
    assert (Hwf0 : wf (set_rx [b] s)) by exact Hwf.
    destruct (loop_survey w (set_rx [b] s) b [] Hwf0 eq_refl)
      as (s1 & e1 & Hrun & Hrx1 & _ & _ & Hkeep & _).
    destruct (loop_total w (set_rx [b] s) Hwf0) as (s1' & e1' & Hrun' & Hwf1 & _).
    rewrite Hrun in Hrun'. injection Hrun' as <- <-.
    destruct (IH s1 Hwf1 Hrx1 (Hkeep Hb Hex) Hrest) as (s' & Hafter & Hex').
    exists s'. split; [|exact Hex'].
    change (b :: cmds) with ([b] ++ cmds). rewrite state_after_app.
    assert (Hserve : serve w b s = Some (tt, s1, e1)).
    { rewrite serve_loop, Hrx. exact Hrun. }
    rewrite (state_after_one w b s s1 e1 Hserve). exact Hafter.
Qed.

Lemma exclusive_kept_witness :
  wf startup /\ rx startup = [] /\ exclusive startup /\
  Forall (fun b => ~ In (wrap8 b) line_on_opcodes)
         [MODE_CHARGE; READ_V; MODE_DISCHARGE; PIN_CHARGE_0; LED_TOGGLE] /\
  exists s',
    state_after (const_world 800 0)
      [MODE_CHARGE; READ_V; MODE_DISCHARGE; PIN_CHARGE_0; LED_TOGGLE] startup
    = Some s' /\
    exclusive s'.
Proof.
  assert (Hc : Forall (fun b => ~ In (wrap8 b) line_on_opcodes)
                 [MODE_CHARGE; READ_V; MODE_DISCHARGE; PIN_CHARGE_0; LED_TOGGLE]).
  { repeat constructor; simpl; intros H;
      repeat (destruct H as [H|H]; [discriminate H|]); exact H. }
  split; [exact startup_wf|]. split; [reflexivity|].
  split; [reflexivity|]. split; [exact Hc|].
  apply (exclusive_kept (const_world 800 0) _ startup startup_wf eq_refl eq_refl Hc).
Defined.

(** X8.  Nothing in the sketch prevents both lines from being on: the
    single-line opcodes write their own line only, so PIN_CHARGE_1 and
    PIN_DISCHARGE_1, in either order and from any state, leave charge and
    discharge on together. *)
Theorem both_lines_can_be_on w s :
  (exists s',
     state_after w [PIN_CHARGE_1; PIN_DISCHARGE_1] (set_rx [] s) = Some s' /\
     charge_on s' = true /\ discharge_on s' = true) /\
  (exists s',
     state_after w [PIN_DISCHARGE_1; PIN_CHARGE_1] (set_rx [] s) = Some s' /\
     charge_on s' = true /\ discharge_on s' = true).
Proof.
  destruct s as [pc pd pl h c r n].
  split; eexists; (split; [reflexivity|]); split; reflexivity.
Qed.

(** X9.  Each mode opcode is the pair of single-line opcodes it stands
    for: on any state with nothing pending, MODE_IDLE leaves the board as
    PIN_DISCHARGE_0 then PIN_CHARGE_0 do, MODE_CHARGE as PIN_DISCHARGE_0
    then PIN_CHARGE_1, and MODE_DISCHARGE as PIN_CHARGE_0 then
    PIN_DISCHARGE_1. *)
Theorem mode_is_two_line_writes w s :
  state_after w [MODE_IDLE] (set_rx [] s)
  = state_after w [PIN_DISCHARGE_0; PIN_CHARGE_0] (set_rx [] s) /\
  state_after w [MODE_CHARGE] (set_rx [] s)
  = state_after w [PIN_DISCHARGE_0; PIN_CHARGE_1] (set_rx [] s) /\
  state_after w [MODE_DISCHARGE] (set_rx [] s)
  = state_after w [PIN_CHARGE_0; PIN_DISCHARGE_1] (set_rx [] s).
Proof.
  destruct s as [pc pd pl h c r n]. repeat split; reflexivity.
Qed.

(** ** Cost of a command *)



(** X11.  Every other byte is served without any delay and with at most
    one conversion. *)
Theorem other_commands_do_not_block w s b q :
  wf s ->
  rx s = b :: q ->
  ~ In (wrap8 b) averaged_opcodes ->
  exists s' ev,
    loop w s = Some (tt, s', ev) /\
    total_delay ev = 0 /\
    (length (conversions ev) <= 1)%nat /\
    (adcReads s' <= S (adcReads s))%nat.
Proof.
  intros Hwf Hrx Hb.
  destruct (loop_survey w s b q Hwf Hrx) as (s' & ev & Hrun & _ & _ & _ & _ & Hcost).
  exists s', ev. split; [exact Hrun | exact (Hcost Hb)].
Qed.

Lemma other_commands_do_not_block_witness :
  wf (set_rx [READ_A0] startup) /\ rx (set_rx [READ_A0] startup) = [READ_A0] /\
  ~ In (wrap8 READ_A0) averaged_opcodes /\
  exists s' ev,
    loop (const_world 100 0) (set_rx [READ_A0] startup) = Some (tt, s', ev) /\
    total_delay ev = 0 /\
    (length (conversions ev) <= 1)%nat /\
    (adcReads s' <= S (adcReads (set_rx [READ_A0] startup)))%nat.
Proof.
  assert (H : ~ In (wrap8 READ_A0) averaged_opcodes).
  { simpl. intros H. repeat (destruct H as [H|H]; [discriminate H|]). exact H. }
  split; [exact startup_wf|]. split; [reflexivity|]. split; [exact H|].
  apply (other_commands_do_not_block (const_world 100 0)
           (set_rx [READ_A0] startup) READ_A0 [] startup_wf eq_refl H).
Defined.

(** ** The rolling average, exactly *)

Lemma sum_ul_exact B l : forall acc,
  0 <= B -> 0 <= acc ->
  Forall (fun v => 0 <= v <= B) l ->
  acc + Z.of_nat (length l) * B < UL_MOD ->
  sum_ul l acc = fold_left Z.add l acc /\
  acc <= fold_left Z.add l acc <= acc + Z.of_nat (length l) * B.
Proof.
  induction l as [|x l IH]; intros acc HB Hacc Hl Hlt.
  - cbn. lia.
  - inversion Hl as [|? ? Hx Hl']; subst.
    cbn [length] in Hlt. rewrite Nat2Z.inj_succ, Z.mul_succ_l in Hlt.
    assert (Hnb : 0 <= Z.of_nat (length l) * B) by (apply Z.mul_nonneg_nonneg; lia).
    cbn [sum_ul fold_left]. fold (sum_ul l (wrap32 (acc + x))).
    rewrite wrap32_small by lia.
    destruct (IH (acc + x) HB ltac:(lia) Hl' ltac:(lia)) as [Heq Hb].
    split; [exact Heq|].
    cbn [length]. rewrite Nat2Z.inj_succ, Z.mul_succ_l. lia.
Qed.

(** The slots [computeAvgVoltage] averages when the counter is [c]. *)
Lemma rolling_avg_exact B c row :
  0 <= B <= HIST_MAX -> 0 <= c ->
  length row = 10%nat ->
  Forall (fun v => 0 <= v <= B) row ->
  let n := if c <? VOLTAGE_HISTORY_NUM then c + 1 else VOLTAGE_HISTORY_NUM in
  rolling_avg c row = fold_left Z.add (take (Z.to_nat n) row) 0 / n /\
  0 <= rolling_avg c row <= B.
Proof.
  intros HB Hc Hlen Hrow n. rewrite HIST_MAX_value in HB.
  assert (Hn : 1 <= n <= 10).
  { unfold n, VOLTAGE_HISTORY_NUM.
    destruct (Z.ltb_spec c 10); lia. }
  assert (Htake : Forall (fun v => 0 <= v <= B) (take (Z.to_nat n) row))
    by (apply Forall_take; exact Hrow).
  assert (Hlt : (length (take (Z.to_nat n) row) = Z.to_nat n)%nat)
    by (rewrite length_take; lia).
  destruct (sum_ul_exact B (take (Z.to_nat n) row) 0) as [Heq Hb];
    [lia | lia | exact Htake | rewrite Hlt, UL_MOD_value; nia |].
  rewrite Hlt in Hb. rewrite Z2Nat.id in Hb by lia.
  assert (Hra : rolling_avg c row = fold_left Z.add (take (Z.to_nat n) row) 0 / n).
  { unfold rolling_avg, n in *. unfold VOLTAGE_HISTORY_NUM in *.
    destruct (Z.ltb_spec c 10) as [Hlt10|Hge10].
    - rewrite wrap32_small by (rewrite UL_MOD_value; lia).
      rewrite Heq. reflexivity.
    - rewrite Heq. reflexivity. }
  split; [exact Hra|]. rewrite Hra. split.
  - apply Z.div_pos; lia.
  - apply Z.div_le_upper_bound; lia.
Qed.

(** X12.  The value an averaged read returns is an exact truncating
    mean: the plain sum, with no 32-bit wrap-around, of the first [n]
    slots of the row as just written, divided by [n], where [n] is one
    more than the incremented counter while that is below 10 and 10 from
    then on; it never exceeds the largest value a slot can hold. *)
Theorem averaged_read_exact_mean w j s :
  In j channels -> wf s ->
  exists row v s' ev,
    gVoltageHist s !! Z.to_nat j = Some row /\
    getVoltage w j s = Some (v, s', ev) /\
    let row' :=
      <[Z.to_nat (gHistCounter s mod VOLTAGE_HISTORY_NUM) := stored_value w j s]>
        row in
    let c' := wrap32 (gHistCounter s + 1) in
    let n := if c' <? VOLTAGE_HISTORY_NUM then c' + 1 else VOLTAGE_HISTORY_NUM in
    v = fold_left Z.add (take (Z.to_nat n) row') 0 / n /\
    0 <= v <= HIST_MAX.
Proof.
  intros Hj Hwf.
  destruct (wf_row s j Hwf Hj) as (row & Hrow & Hlen & Hb).
  assert (Hc : 0 <= gHistCounter s) by (destruct Hwf as (_ & _ & ?); lia).
  pose proof (getVoltage_run w j row s Hj Hrow Hlen Hc) as Hrun.
  cbv zeta in Hrun.
  exists row. do 3 eexists. split; [exact Hrow|]. split; [exact Hrun|].
  cbv zeta. apply (rolling_avg_exact HIST_MAX).
  - rewrite HIST_MAX_value. lia.
  - apply wrap32_range.
  - rewrite length_insert. exact Hlen.
  - apply Forall_insert; [exact Hb | apply stored_value_bound].
Qed.

Lemma averaged_read_exact_mean_witness :
  In 1 channels /\ wf startup /\
  exists row v s' ev,
    gVoltageHist startup !! Z.to_nat 1 = Some row /\
    getVoltage (const_world 640 0) 1 startup = Some (v, s', ev) /\
    let row' :=
      <[Z.to_nat (gHistCounter startup mod VOLTAGE_HISTORY_NUM)
        := stored_value (const_world 640 0) 1 startup]> row in
    let c' := wrap32 (gHistCounter startup + 1) in
    let n := if c' <? VOLTAGE_HISTORY_NUM then c' + 1 else VOLTAGE_HISTORY_NUM in
    v = fold_left Z.add (take (Z.to_nat n) row') 0 / n /\
    0 <= v <= HIST_MAX.
Proof.
  assert (H1 : In 1 channels) by solve_In.
  split; [exact H1|]. split; [exact startup_wf|].
  apply (averaged_read_exact_mean (const_world 640 0) 1 startup H1 startup_wf).
Defined.

Lemma stored_value_in_range w j s :
  (forall i, 0 <= adc w j i <= 1023) ->
  uninit w (adcReads s) = 0 ->
  0 <= stored_value w j s <= CAN_REF.
Proof.
  intros Hadc Hz. unfold stored_value, scaled_from.
  rewrite Hz. change (wrap32 0) with 0.
  change (Z.to_nat NB_ANALOG_RD) with 204%nat.
  destruct (sum_samples_exact w j 204 (adcReads s) 0 Hadc) as [_ Hb];
    [lia | rewrite UL_MOD_value; lia |].
  set (sum := sum_samples w j 204 (adcReads s) 0) in *.
  unfold NB_ANALOG_RD, CAN_REF, CAN_BITSIZE.
  assert (Hm : 0 <= sum / 204 <= 1023).
  { split; [apply Z.div_pos; lia|]. apply Z.div_le_upper_bound; lia. }
  rewrite wrap32_small by (rewrite UL_MOD_value; lia).
  split; [apply Z.div_pos; lia|]. apply Z.div_le_upper_bound; lia.
Qed.

(** X13.  With samples in the range of the 10-bit converter and the
    accumulator starting at zero, an averaged read never reports more
    than the reference voltage: if no slot of the history is above
    [CAN_REF] = 2410 (the seed 1500 is not), the value stored, the value
    returned and every slot afterwards are at most 2410. *)
Theorem averaged_read_within_reference w j s :
  In j channels -> wf s ->
  Forall (fun row => Forall (fun v => 0 <= v <= CAN_REF) row) (gVoltageHist s) ->
  (forall i, 0 <= adc w j i <= 1023) ->
  uninit w (adcReads s) = 0 ->
  exists v s' ev,
    getVoltage w j s = Some (v, s', ev) /\
    0 <= stored_value w j s <= CAN_REF /\
    0 <= v <= CAN_REF /\
    Forall (fun row => Forall (fun v => 0 <= v <= CAN_REF) row) (gVoltageHist s').
Proof.
  intros Hj Hwf Hmv Hadc Hz.
  destruct (wf_row s j Hwf Hj) as (row & Hrow & Hlen & _).
  assert (Hc : 0 <= gHistCounter s) by (destruct Hwf as (_ & _ & ?); lia).
  assert (Hrb : Forall (fun v => 0 <= v <= CAN_REF) row).
  { rewrite Forall_forall in Hmv. apply Hmv.
    apply list_elem_of_lookup. exists (Z.to_nat j). exact Hrow. }
  pose proof (stored_value_in_range w j s Hadc Hz) as Hsv.
  assert (Hrb' : Forall (fun v => 0 <= v <= CAN_REF)
                   (<[Z.to_nat (gHistCounter s mod VOLTAGE_HISTORY_NUM)
                      := stored_value w j s]> row))
    by (apply Forall_insert; assumption).
  pose proof (getVoltage_run w j row s Hj Hrow Hlen Hc) as Hrun.
  cbv zeta in Hrun. do 3 eexists. split; [exact Hrun|].
  split; [exact Hsv|]. split.
  - apply (rolling_avg_exact CAN_REF);
      [ rewrite HIST_MAX_value; unfold CAN_REF; lia
      | apply wrap32_range
      | rewrite length_insert; exact Hlen
      | exact Hrb' ].
  - cbn [gVoltageHist]. apply Forall_insert; assumption.
Qed.

Lemma averaged_read_within_reference_witness :
  In 0 channels /\ wf startup /\
  Forall (fun row => Forall (fun v => 0 <= v <= CAN_REF) row) (gVoltageHist startup) /\
  (forall i, 0 <= adc (const_world 1023 0) 0 i <= 1023) /\
  uninit (const_world 1023 0) (adcReads startup) = 0 /\
  exists v s' ev,
    getVoltage (const_world 1023 0) 0 startup = Some (v, s', ev) /\
    0 <= stored_value (const_world 1023 0) 0 startup <= CAN_REF /\
    0 <= v <= CAN_REF /\
    Forall (fun row => Forall (fun v => 0 <= v <= CAN_REF) row) (gVoltageHist s').
Proof.
  assert (H1 : In 0 channels) by solve_In.
  assert (H2 : Forall (fun row => Forall (fun v => 0 <= v <= CAN_REF) row)
                 (gVoltageHist startup)).
  { repeat constructor; vm_compute; congruence. }
  assert (H3 : forall i, 0 <= adc (const_world 1023 0) 0 i <= 1023)
    by (intros i; cbn; lia).
  split; [exact H1|]. split; [exact startup_wf|]. split; [exact H2|].
  split; [exact H3|]. split; [reflexivity|].
  apply (averaged_read_within_reference (const_world 1023 0) 0 startup
           H1 startup_wf H2 H3 eq_refl).
Defined.

(** ** Edges of the counter and of the history *)

(** X14.  When the counter holds its largest value, 2^32 - 1, an
    averaged read writes slot 5, wraps the counter to 0 and falls back
    into the warm-up branch: the value returned is slot 0 of the row
    alone, not an average of the ten slots. *)
Theorem counter_wrap_returns_slot_zero w j s :
  In j channels -> wf s ->
  gHistCounter s = UL_MOD - 1 ->
  exists row x0 s' ev,
    gVoltageHist s !! Z.to_nat j = Some row /\
    row !! 0%nat = Some x0 /\
    getVoltage w j s = Some (x0, s', ev) /\
    gHistCounter s' = 0 /\
    gVoltageHist s' !! Z.to_nat j = Some (<[5%nat := stored_value w j s]> row).
Proof.
  intros Hj Hwf Hmax.
  destruct (wf_row s j Hwf Hj) as (row & Hrow & Hlen & Hb).
  assert (Hc : 0 <= gHistCounter s) by (destruct Hwf as (_ & _ & ?); lia).
  pose proof (getVoltage_run w j row s Hj Hrow Hlen Hc) as Hrun.
  cbv zeta in Hrun. rewrite Hmax in Hrun.
  change (wrap32 (UL_MOD - 1 + 1)) with 0 in Hrun.
  change (Z.to_nat ((UL_MOD - 1) mod VOLTAGE_HISTORY_NUM)) with 5%nat in Hrun.
  destruct row as [|x0 row]; [discriminate Hlen|].
  inversion Hb as [|? ? Hx0 _]; subst. rewrite HIST_MAX_value in Hx0.
  assert (Havg : rolling_avg 0 (<[5%nat := stored_value w j s]> (x0 :: row)) = x0).
  { unfold rolling_avg. change (0 <? VOLTAGE_HISTORY_NUM) with true. cbv iota.
    change (Z.to_nat (0 + 1)) with 1%nat. change (wrap32 (0 + 1)) with 1.
    cbn [insert list_insert take sum_ul fold_left].
    rewrite Z.add_0_l, wrap32_small by (rewrite UL_MOD_value; lia).
    apply Z.div_1_r. }
  rewrite Havg in Hrun.
  exists (x0 :: row), x0. do 2 eexists.
  split; [exact Hrow|]. split; [reflexivity|]. split; [exact Hrun|].
  split; [reflexivity|].
  cbn [gVoltageHist]. apply list_lookup_insert_eq.
  apply lookup_lt_Some in Hrow. exact Hrow.
Qed.

Lemma counter_wrap_returns_slot_zero_witness :
  In 0 channels /\
  wf (set_gHistCounter (UL_MOD - 1) startup) /\
  gHistCounter (set_gHistCounter (UL_MOD - 1) startup) = UL_MOD - 1 /\
  exists row x0 s' ev,
    gVoltageHist (set_gHistCounter (UL_MOD - 1) startup) !! Z.to_nat 0 = Some row /\
    row !! 0%nat = Some x0 /\
    getVoltage (const_world 0 0) 0 (set_gHistCounter (UL_MOD - 1) startup)
    = Some (x0, s', ev) /\
    gHistCounter s' = 0 /\
    gVoltageHist s' !! Z.to_nat 0
    = Some (<[5%nat := stored_value (const_world 0 0) 0
                         (set_gHistCounter (UL_MOD - 1) startup)]> row).
Proof.
  assert (H1 : In 0 channels) by solve_In.
  assert (H2 : wf (set_gHistCounter (UL_MOD - 1) startup)).
  { destruct startup_wf as (Hl & Hr & _).
    split; [exact Hl|]. split; [exact Hr|]. vm_compute. split; congruence. }
  split; [exact H1|]. split; [exact H2|]. split; [reflexivity|].
  apply (counter_wrap_returns_slot_zero (const_world 0 0) 0
           (set_gHistCounter (UL_MOD - 1) startup) H1 H2 eq_refl).
Defined.

(** X15.  An averaged read of channel [j] changes one slot of the
    history and nothing else in it: the rows of the other channels are
    the same, and in row [j] only the slot at the counter modulo 10 is
    new; the latches and the receive buffer are untouched. *)
Theorem averaged_read_writes_one_slot w j s :
  In j channels -> wf s ->
  exists row row' v s' ev,
    gVoltageHist s !! Z.to_nat j = Some row /\
    getVoltage w j s = Some (v, s', ev) /\
    gVoltageHist s' !! Z.to_nat j = Some row' /\
    let slot := Z.to_nat (gHistCounter s mod VOLTAGE_HISTORY_NUM) in
    row' !! slot = Some (stored_value w j s) /\
    (forall i, i <> slot -> row' !! i = row !! i) /\
    (forall j' : nat, j' <> Z.to_nat j ->
       gVoltageHist s' !! j' = gVoltageHist s !! j') /\
    pinCharge s' = pinCharge s /\ pinDischarge s' = pinDischarge s /\
    pinLed s' = pinLed s /\ rx s' = rx s.
Proof.
  intros Hj Hwf.
  destruct (wf_row s j Hwf Hj) as (row & Hrow & Hlen & _).
  assert (Hc : 0 <= gHistCounter s < UL_MOD) by (destruct Hwf as (_ & _ & ?); lia).
  pose proof (getVoltage_run w j row s Hj Hrow Hlen (proj1 Hc)) as Hrun.
  cbv zeta in Hrun.
  exists row. do 4 eexists.
  split; [exact Hrow|]. split; [exact Hrun|]. split.
  { cbn [gVoltageHist]. apply list_lookup_insert_eq.
    apply lookup_lt_Some in Hrow. exact Hrow. }
  cbv zeta. split.
  { apply list_lookup_insert_eq. rewrite Hlen.
    pose proof (Z.mod_pos_bound (gHistCounter s) VOLTAGE_HISTORY_NUM) as Hm.
    unfold VOLTAGE_HISTORY_NUM in *. lia. }
  split; [intros i Hi; apply list_lookup_insert_ne; congruence|].
  split; [intros j' Hj'; cbn [gVoltageHist];
          apply list_lookup_insert_ne; congruence|].
  repeat split.
Qed.

Lemma averaged_read_writes_one_slot_witness :
  In 3 channels /\ wf startup /\
  exists row row' v s' ev,
    gVoltageHist startup !! Z.to_nat 3 = Some row /\
    getVoltage (const_world 400 0) 3 startup = Some (v, s', ev) /\
    gVoltageHist s' !! Z.to_nat 3 = Some row' /\
    let slot := Z.to_nat (gHistCounter startup mod VOLTAGE_HISTORY_NUM) in
    row' !! slot = Some (stored_value (const_world 400 0) 3 startup) /\
    (forall i, i <> slot -> row' !! i = row !! i) /\
    (forall j' : nat, j' <> Z.to_nat 3 ->
       gVoltageHist s' !! j' = gVoltageHist startup !! j') /\
    pinCharge s' = pinCharge startup /\ pinDischarge s' = pinDischarge startup /\
    pinLed s' = pinLed startup /\ rx s' = rx startup.
Proof.
  assert (H1 : In 3 channels) by solve_In.
  split; [exact H1|]. split; [exact startup_wf|].
  apply (averaged_read_writes_one_slot (const_world 400 0) 3 startup H1 startup_wf).
Defined.

(** ** The receive buffer *)

(** X16.  A cycle of [loop] takes at most one byte, the oldest, and
    leaves the bytes behind it queued in order; with nothing received it
    returns at once, the state as it was and nothing logged. *)
Theorem loop_takes_one_byte w s :
  wf s ->
  exists s' ev,
    loop w s = Some (tt, s', ev) /\
    match rx s with
    | [] => s' = s /\ ev = []
    | _ :: q => rx s' = q
    end.
Proof.
  intros Hwf.
  destruct (loop_total w s Hwf) as (s' & ev & Hrun & _ & _ & Hrx).
  exists s', ev. split; [exact Hrun|].
  destruct (rx s) as [|b q] eqn:Hq.
  - rewrite (loop_idle w s Hq) in Hrun.
    injection Hrun as <- <-. split; reflexivity.
  - exact Hrx.
Qed.

Lemma loop_takes_one_byte_witness :
  wf (set_rx [MODE_CHARGE; READ_V; 0x99] startup) /\
  exists s' ev,
    loop (const_world 5 0) (set_rx [MODE_CHARGE; READ_V; 0x99] startup)
    = Some (tt, s', ev) /\
    rx s' = [READ_V; 0x99].
Proof.
  split; [exact startup_wf|].
  apply (loop_takes_one_byte (const_world 5 0)
           (set_rx [MODE_CHARGE; READ_V; 0x99] startup) startup_wf).
Defined.

(** ** Averaged reads on the wire *)

(** X17.  The reply to an averaged-read command, served with nothing
    else pending, is the decimal text of the value [getVoltage] returns
    in that state, followed by the terminator: the digits read back as
    that value. *)
Theorem averaged_read_reply w j s :
  In j channels -> wf s -> rx s = [] ->
  exists v s0 ev0 s' ev ds,
    getVoltage w j s = Some (v, s0, ev0) /\
    serve w (averaged_opcode j) s = Some (tt, s', ev) /\
    serial_out ev = ds ++ [STOP_BYTE] /\
    Forall (fun d => 48 <= d <= 57) ds /\
    parse_decimal ds = v.
Proof.
  intros Hj Hwf Hrx.
  destruct (serve_averaged w j (averaged_opcode j) s Hj
              (wrap8_averaged_opcode j Hj) Hwf Hrx)
    as (row & ev & Hrow & Hrun & Hout).
  cbv zeta in Hrun, Hout.
  destruct (wf_row s j Hwf Hj) as (row1 & Hrow1 & Hlen & Hb).
  assert (Hr : row1 = row) by congruence. subst row1.
  assert (Hc : 0 <= gHistCounter s) by (destruct Hwf as (_ & _ & ?); lia).
  pose proof (getVoltage_run w j row s Hj Hrow Hlen Hc) as Hget.
  cbv zeta in Hget.
  do 6 eexists. split; [exact Hget|]. split; [exact Hrun|].
  split; [exact Hout|]. split; [apply decimal_digits|].
  apply decimal_parse.
  destruct (rolling_avg_exact HIST_MAX (wrap32 (gHistCounter s + 1))
              (<[Z.to_nat (gHistCounter s mod VOLTAGE_HISTORY_NUM)
                 := stored_value w j s]> row)) as [_ Hv].
  - rewrite HIST_MAX_value. lia.
  - apply wrap32_range.
  - rewrite length_insert. exact Hlen.
  - apply Forall_insert; [exact Hb | apply stored_value_bound].
  - rewrite HIST_MAX_value in Hv. rewrite UL_MOD_value. lia.
Qed.

Lemma averaged_read_reply_witness :
  In 0 channels /\ wf startup /\ rx startup = [] /\
  exists v s0 ev0 s' ev ds,
    getVoltage (const_world 900 0) 0 startup = Some (v, s0, ev0) /\
    serve (const_world 900 0) (averaged_opcode 0) startup = Some (tt, s', ev) /\
    serial_out ev = ds ++ [STOP_BYTE] /\
    Forall (fun d => 48 <= d <= 57) ds /\
    parse_decimal ds = v.
Proof.
  assert (H1 : In 0 channels) by solve_In.
  split; [exact H1|]. split; [exact startup_wf|]. split; [reflexivity|].
  apply (averaged_read_reply (const_world 900 0) 0 startup H1 startup_wf eq_refl).
Defined.
